(** * The orchestrator agent (Head Coach) of vita_life_coach

    A shallow embedding of [backend/agents/orchestrator_agent.py]: the
    ReAct output parser, the specialist-name normaliser, the action
    dispatcher, the bounded reasoning loop and its forced synthesis.

    Python strings are modelled as lists of characters, each character a
    code point below 256 (the 8-bit [ascii] type read as U+0000..U+00FF).
    On that range [str.isspace], [str.lower], the regular-expression class
    [\s] and case-insensitive literal matching are modelled exactly. *)

From Stdlib Require Import List Ascii String Bool Arith NArith Lia.
Import ListNotations.

(* ================================================================== *)
(** * Strings *)
(* ================================================================== *)

Definition pystr := list ascii.

(** A string literal. *)
Definition str (s : string) : pystr := list_ascii_of_string s.

(** The newline character, U+000A. *)
Definition nl : ascii := ascii_of_nat 10.

Fixpoint str_eqb (a b : pystr) : bool :=
  match a, b with
  | [], [] => true
  | x :: a', y :: b' => Ascii.eqb x y && str_eqb a' b'
  | _, _ => false
  end.

(** [str.isspace] on one character: U+0009..U+000D, U+001C..U+0020,
    U+0085 and U+00A0. The regular-expression class [\s] is the same set. *)
Definition py_isspace (c : ascii) : bool :=
  let n := N_of_ascii c in
  ((9 <=? n) && (n <=? 13) || (28 <=? n) && (n <=? 32)
   || (n =? 133) || (n =? 160))%N.

(** [str.lower] on one character: A..Z and the capital letters
    U+00C0..U+00DE other than the multiplication sign U+00D7 move up by 32. *)
Definition lower_char (c : ascii) : ascii :=
  let n := N_of_ascii c in
  if ((65 <=? n) && (n <=? 90)
      || (192 <=? n) && (n <=? 222) && negb (n =? 215))%N
  then ascii_of_N (n + 32) else c.

(** [s.lower()] *)
Definition lower (s : pystr) : pystr := map lower_char s.

(** [s.lstrip()], [s.rstrip()] and [s.strip()] with no argument. *)
Fixpoint lstrip (s : pystr) : pystr :=
  match s with
  | c :: s' => if py_isspace c then lstrip s' else s
  | [] => []
  end.

Definition rstrip (s : pystr) : pystr := rev (lstrip (rev s)).

Definition strip (s : pystr) : pystr := rstrip (lstrip s).

(** [s.startswith(p)] *)
Fixpoint startswith (s p : pystr) {struct p} : bool :=
  match p with
  | [] => true
  | x :: p' =>
      match s with
      | y :: s' => Ascii.eqb x y && startswith s' p'
      | [] => false
      end
  end.

(** [s.split(",", 1)]: the text before the first comma and, when there is
    a comma, the text after it. *)
Fixpoint split_comma (s : pystr) : pystr * option pystr :=
  match s with
  | [] => ([], None)
  | c :: s' =>
      if Ascii.eqb c ","%char then ([], Some s')
      else let (a, b) := split_comma s' in (c :: a, b)
  end.

(** Truthiness of a string: [bool(s)]. *)
Definition truthy (s : pystr) : bool :=
  match s with [] => false | _ :: _ => true end.

(* ================================================================== *)
(** * Specialist names *)
(* ================================================================== *)

Definition MODULE_NAME : pystr := str "Orchestrator Agent".
Definition MAX_ITERATIONS : nat := 5.

Definition _SPECIALIST_ALIASES : list (pystr * pystr) :=
  [ (str "nutrition expert", str "Nutrition Expert");
    (str "nutritionexpert", str "Nutrition Expert");
    (str "nutrition", str "Nutrition Expert");
    (str "science researcher", str "Science Researcher");
    (str "scienceresearcher", str "Science Researcher");
    (str "science", str "Science Researcher");
    (str "researcher", str "Science Researcher");
    (str "wellness coach", str "Wellness Coach");
    (str "wellnesscoach", str "Wellness Coach");
    (str "wellness", str "Wellness Coach");
    (str "coach", str "Wellness Coach") ].

(** [d[key]] when [key in d], for a dict literal with distinct keys. *)
Fixpoint dict_get (d : list (pystr * pystr)) (key : pystr) : option pystr :=
  match d with
  | [] => None
  | (k, v) :: d' => if str_eqb key k then Some v else dict_get d' key
  end.

Definition _normalize_specialist (name : pystr) : pystr :=
  let key := lower (strip name) in
  match dict_get _SPECIALIST_ALIASES key with
  | Some canonical => canonical
  | None => strip name
  end.

(* ================================================================== *)
(** * Regular expressions

    The fragment of Python's [re] the program's seven patterns are written
    in, with the backtracking semantics of the [re] engine: alternatives
    and repetition counts are tried in priority order and the first
    complete match wins. Every repetition of the program is over a single
    character class, so [RRep] repeats a class. All patterns are compiled
    with [re.DOTALL], so [.] is the class of all characters. *)
(* ================================================================== *)

Inductive cset : Type :=
| CLit (c : ascii)    (* a literal character *)
| CLitI (c : ascii)   (* a literal character under re.IGNORECASE *)
| CSpace              (* \s *)
| CAny.               (* . under re.DOTALL *)

Definition cset_mem (cs : cset) (ch : ascii) : bool :=
  match cs with
  | CLit c => Ascii.eqb ch c
  | CLitI c => Ascii.eqb (lower_char ch) (lower_char c)
  | CSpace => py_isspace ch
  | CAny => true
  end.

Inductive regex : Type :=
| REps                                            (* the empty pattern *)
| RChar (cs : cset)
| RSeq (r1 r2 : regex)
| RAlt (r1 r2 : regex)                            (* r1|r2 *)
| RRep (greedy : bool) (least : nat) (cs : cset)  (* cs* cs+ cs*? cs+? *)
| RGroup (i : nat) (r : regex)                    (* capture group i *)
| RLook (r : regex)                               (* (?=r) *)
| REndZ                                           (* \Z *)
| RDollar.                                        (* $ without re.MULTILINE *)

Infix "+++" := RSeq (at level 60, right associativity).

(** The captures of a match, the most recent binding of a group first. *)
Definition captures := list (nat * pystr).

Fixpoint group (i : nat) (m : captures) : pystr :=
  match m with
  | [] => []
  | (j, s) :: m' => if Nat.eqb i j then s else group i m'
  end.

Definition cont := pystr -> captures -> option captures.

Definition or_else (a : option captures) (b : unit -> option captures) :=
  match a with
  | Some m => Some m
  | None => b tt
  end.

(** Greedy repetition: take a character when possible, and give it back
    when the rest of the pattern fails. *)
Fixpoint rep_greedy (cs : cset) (least : nat)
    (s : pystr) (m : captures) (k : cont) : option captures :=
  let stop := match least with 0 => k s m | S _ => None end in
  match s with
  | ch :: s' =>
      if cset_mem cs ch
      then or_else (rep_greedy cs (pred least) s' m k) (fun _ => stop)
      else stop
  | [] => stop
  end.

(** Lazy repetition: try the rest of the pattern first, and take one more
    character when it fails. *)
Fixpoint rep_lazy (cs : cset) (least : nat)
    (s : pystr) (m : captures) (k : cont) : option captures :=
  let more :=
    match s with
    | ch :: s' =>
        if cset_mem cs ch then rep_lazy cs (pred least) s' m k else None
    | [] => None
    end in
  match least with
  | 0 => or_else (k s m) (fun _ => more)
  | S _ => more
  end.

Fixpoint rmatch (r : regex) (s : pystr) (m : captures) (k : cont)
    : option captures :=
  match r with
  | REps => k s m
  | RChar cs =>
      match s with
      | ch :: s' => if cset_mem cs ch then k s' m else None
      | [] => None
      end
  | RSeq r1 r2 => rmatch r1 s m (fun s' m' => rmatch r2 s' m' k)
  | RAlt r1 r2 => or_else (rmatch r1 s m k) (fun _ => rmatch r2 s m k)
  | RRep true least cs => rep_greedy cs least s m k
  | RRep false least cs => rep_lazy cs least s m k
  | RGroup i r1 =>
      rmatch r1 s m
        (fun s' m' => k s' ((i, firstn (List.length s - List.length s') s) :: m'))
  | RLook r1 =>
      match rmatch r1 s m (fun _ m' => Some m') with
      | Some m' => k s m'
      | None => None
      end
  | REndZ => match s with [] => k s m | _ :: _ => None end
  | RDollar =>
      match s with
      | [] => k s m
      | [c] => if Ascii.eqb c nl then k s m else None
      | _ :: _ :: _ => None
      end
  end.

(** The continuation that ends a match. *)
Definition accept : cont := fun _ m => Some m.

(** [re.match(r, s)]: a match anchored at the start of [s]. *)
Definition re_match (r : regex) (s : pystr) : option captures :=
  rmatch r s [] accept.

(** [re.search(r, s)]: the match at the leftmost position that has one. *)
Fixpoint re_search (r : regex) (s : pystr) : option captures :=
  or_else (re_match r s)
    (fun _ => match s with [] => None | _ :: s' => re_search r s' end).

(** A literal run of characters; [ci] is re.IGNORECASE. *)
Definition lit (ci : bool) (s : pystr) : regex :=
  fold_right (fun c r => RChar (if ci then CLitI c else CLit c) +++ r) REps s.

(** [Thought:\s*(.+?)(?=\nAction:|\Z)] *)
Definition thought_re : regex :=
  lit false (str "Thought:") +++ RRep true 0 CSpace
  +++ RGroup 1 (RRep false 1 CAny)
  +++ RLook (RAlt (lit false (nl :: str "Action:")) REndZ).

(** [Action:\s*(.+?)(?=\nAction Input:|\Z)] *)
Definition action_re : regex :=
  lit false (str "Action:") +++ RRep true 0 CSpace
  +++ RGroup 1 (RRep false 1 CAny)
  +++ RLook (RAlt (lit false (nl :: str "Action Input:")) REndZ).

(** [Action Input:\s*(.+)] *)
Definition input_re : regex :=
  lit false (str "Action Input:") +++ RRep true 0 CSpace
  +++ RGroup 1 (RRep true 1 CAny).

(** [call_specialist\(\s*(.+?)\s*,\s*(.+?)\s*\)$] *)
Definition call_specialist_re : regex :=
  lit false (str "call_specialist(") +++ RRep true 0 CSpace
  +++ RGroup 1 (RRep false 1 CAny) +++ RRep true 0 CSpace
  +++ RChar (CLit ","%char) +++ RRep true 0 CSpace
  +++ RGroup 2 (RRep false 1 CAny) +++ RRep true 0 CSpace
  +++ RChar (CLit ")"%char) +++ RDollar.

(** [name\(\s*(.+?)\s*\)$], the shape of the two search patterns and,
    under re.IGNORECASE, of the finish pattern. *)
Definition call_re (ci : bool) (name : pystr) : regex :=
  lit ci name +++ RChar (CLit "("%char) +++ RRep true 0 CSpace
  +++ RGroup 1 (RRep false 1 CAny) +++ RRep true 0 CSpace
  +++ RChar (CLit ")"%char) +++ RDollar.

Definition search_nutrition_re : regex := call_re false (str "search_nutrition").
Definition search_research_re : regex := call_re false (str "search_research").
Definition finish_re : regex := call_re true (str "finish").

(* ================================================================== *)
(** * The output parser *)
(* ================================================================== *)

Record ReactTurn : Type := {
  thought : pystr;
  action : pystr;
  action_input : pystr
}.

(** [m.group(1).strip()] when the pattern is found, the empty string
    otherwise. *)
Definition field (r : regex) (text : pystr) : pystr :=
  match re_search r text with
  | Some m => strip (group 1 m)
  | None => []
  end.

Definition _parse_react_output (text : pystr) : ReactTurn :=
  {| thought := field thought_re text;
     action := field action_re text;
     action_input := field input_re text |}.

(* ================================================================== *)
(** * Step records, external collaborators and effects *)
(* ================================================================== *)

(** A chat message: [{"role": ..., "content": ...}]. *)
Record Message : Type := { role : pystr; content : pystr }.

(** What a step record holds under ["prompt"] and ["response"]. *)
Inductive Payload (Raw : Type) : Type :=
| PMessages (messages : list Message)   (* {"messages": messages} *)
| PTask (task : pystr)                  (* {"task": task} *)
| PError (e : pystr)                    (* {"error": str(e)} *)
| PRaw (raw : Raw).                     (* a record a backend returned *)

Arguments PMessages {Raw} messages.
Arguments PTask {Raw} task.
Arguments PError {Raw} e.
Arguments PRaw {Raw} raw.

(** [{"module": ..., "prompt": ..., "response": ...}] *)
Record StepRecord (Raw : Type) : Type := {
  module : pystr;
  prompt : Payload Raw;
  response : Payload Raw
}.

Arguments module {Raw} _.
Arguments prompt {Raw} _.
Arguments response {Raw} _.

(** The outcome of a call that may raise. [Raise e] is an exception of
    class [Exception], the class the module's one [except] clause names,
    kept as its text, [str(e)]. *)
Inductive result (A : Type) : Type :=
| Ok (a : A)
| Raise (e : pystr).

Arguments Ok {A} a.
Arguments Raise {A} e.

(** The collaborators the module imports: [llm_client],
    [backend.agents.specialists] and [backend.rag.retrieval]. They are
    not part of this file of the repository and are taken as parameters.
    Each call may read and change the state of the outside world, and
    each may raise. A retrieval lookup that returns gives a context
    string, empty when there is no result.
    [REACT_SYSTEM_PROMPT] is the fixed instruction block sent as the
    system message of every turn; its text has characters beyond U+00FF
    and nothing in the module inspects it, so it is a parameter too. *)
Class Backends : Type := {
  World : Type;
  Raw : Type;
  chat_with_raw_response :
    list Message -> World -> result (pystr * Raw) * World;
  run_specialist :
    pystr -> pystr -> pystr -> World
    -> result (pystr * StepRecord Raw) * World;
  get_nutrition_context : pystr -> World -> result pystr * World;
  get_research_context : pystr -> World -> result pystr * World;
  REACT_SYSTEM_PROMPT : pystr
}.

(** The calls made to the collaborators, in order. *)
Inductive Event : Type :=
| EvChat (messages : list Message)
| EvSpecialist (name task context : pystr)
| EvNutrition (query : pystr)
| EvResearch (query : pystr).

Definition is_chat (e : Event) : bool :=
  match e with EvChat _ => true | _ => false end.

Section Effects.
Context {B : Backends}.

Definition Step : Type := StepRecord Raw.

(** The state a computation threads: the outside world and the log of
    the calls made so far. *)
Definition State : Type := (World * list Event)%type.

Definition M (A : Type) : Type := State -> result A * State.

Definition ret {A} (a : A) : M A := fun st => (Ok a, st).

Definition bind {A C} (c : M A) (f : A -> M C) : M C :=
  fun st =>
    match c st with
    | (Ok a, st') => f a st'
    | (Raise e, st') => (Raise e, st')
    end.

(** [try: c  except Exception as e: h(str(e))] *)
Definition try_except {A} (c : M A) (h : pystr -> M A) : M A :=
  fun st =>
    match c st with
    | (Ok a, st') => (Ok a, st')
    | (Raise e, st') => h e st'
    end.

Definition call_chat (messages : list Message) : M (pystr * Raw) :=
  fun '(w, log) =>
    let (r, w') := chat_with_raw_response messages w in
    (r, (w', log ++ [EvChat messages])).

Definition call_specialist (name task context : pystr)
    : M (pystr * Step) :=
  fun '(w, log) =>
    let (r, w') := run_specialist name task context w in
    (r, (w', log ++ [EvSpecialist name task context])).

Definition call_nutrition (query : pystr) : M pystr :=
  fun '(w, log) =>
    let (r, w') := get_nutrition_context query w in
    (r, (w', log ++ [EvNutrition query])).

Definition call_research (query : pystr) : M pystr :=
  fun '(w, log) =>
    let (r, w') := get_research_context query w in
    (r, (w', log ++ [EvResearch query])).
End Effects.

Notation "x <- c ;; k" := (bind c (fun x => k))
  (at level 61, c at next level, right associativity).
Notation "' p <- c ;; k" := (bind c (fun x => let 'p := x in k))
  (at level 61, p pattern, c at next level, right associativity).

(* ================================================================== *)
(** * The action dispatcher *)
(* ================================================================== *)

(** [a or b] on strings. *)
Definition str_or (a b : pystr) : pystr := if truthy a then a else b.

(** Lines 93-104 of [_execute_action]: the specialist name and the task,
    [None] for both when the action is not a specialist call. *)
Definition specialist_call_of (action action_input : pystr)
    : option (pystr * pystr) :=
  match re_match call_specialist_re action with
  | Some m => Some (_normalize_specialist (group 1 m), strip (group 2 m))
  | None =>
      if startswith (lower action) (str "call_specialist")
      then
        let (first, rest) := split_comma action_input in
        Some (_normalize_specialist first,
              match rest with
              | Some t => strip t
              | None => action_input
              end)
      else None
  end.

(** Lines 179-183 of [run], the finish check: the final response when
    the turn's action is [finish(<response>)] in any letter case, or the
    bare word [finish]; [None] when the turn goes on to the dispatcher. *)
Definition finish_response (parsed : ReactTurn) : option pystr :=
  match re_match finish_re (action parsed) with
  | Some finish_match => Some (group 1 finish_match)
  | None =>
      if str_eqb (lower (action parsed)) (str "finish")
      then Some (action_input parsed)
      else None
  end.

Section Dispatch.
Context {B : Backends}.

(** Lines 108-112: the retrieval context injected for a specialist. *)
Definition inject_context (specialist_name task : pystr) : M pystr :=
  if str_eqb specialist_name (str "Nutrition Expert")
  then call_nutrition task
  else if str_eqb specialist_name (str "Science Researcher")
  then call_research task
  else ret [].

(** Lines 107-120: the delegation to a specialist. *)
Definition delegate (specialist_name task : pystr) (steps : list Step)
    : M (pystr * list Step) :=
  context <- inject_context specialist_name task ;;
  try_except
    ('(response_text, step_dict) <-
       call_specialist specialist_name task context ;;
     ret (response_text, steps ++ [step_dict]))
    (fun e =>
       ret (str "Error calling " ++ specialist_name ++ str ": " ++ e,
            steps ++ [ {| module := specialist_name;
                          prompt := PTask task;
                          response := PError e |} ])).

(** Lines 122-140: the retrieval lookups, finish and the fallback. *)
Definition lookup_or_finish (action action_input : pystr)
    (steps : list Step) : M (pystr * list Step) :=
  match re_match search_nutrition_re action with
  | Some m =>
      result <- call_nutrition (group 1 m) ;;
      ret (str_or result (str "No nutrition data found."), steps)
  | None =>
      match re_match search_research_re action with
      | Some m =>
          result <- call_research (group 1 m) ;;
          ret (str_or result (str "No research data found."), steps)
      | None =>
          if startswith (lower action) (str "finish")
          then ret (action_input, steps)
          else ret (str "Unknown action: " ++ action, steps)
      end
  end.

(** [_execute_action(action, action_input, steps)]: the observation and
    the trail as the call leaves it. *)
Definition _execute_action (action action_input : pystr)
    (steps : list Step) : M (pystr * list Step) :=
  match specialist_call_of action action_input with
  | Some (specialist_name, task) =>
      if truthy specialist_name && truthy task
      then delegate specialist_name task steps
      else lookup_or_finish action action_input steps
  | None => lookup_or_finish action action_input steps
  end.

(* ================================================================ *)
(** * The loop controller *)
(* ================================================================ *)

Definition orchestrator_step (messages : list Message) (raw : Raw) : Step :=
  {| module := MODULE_NAME;
     prompt := PMessages messages;
     response := PRaw raw |}.

Definition synthesis_messages (prompt scratchpad : pystr) : list Message :=
  [ {| role := str "system";
       content := str "You are the Head Coach of Vita, an AI wellness and nutrition coach. Synthesize everything gathered so far into one concise, friendly response." |};
    {| role := str "user";
       content := str "User request: " ++ prompt ++ [nl; nl]
                  ++ str "Research so far:" ++ [nl] ++ scratchpad
                  ++ [nl; nl] ++ str "Please provide your final answer now." |} ].

Definition _force_finish (prompt scratchpad : pystr) (steps : list Step)
    : M (pystr * list Step) :=
  let messages := synthesis_messages prompt scratchpad in
  '(final_content, raw_response) <- call_chat messages ;;
  ret (final_content, steps ++ [orchestrator_step messages raw_response]).

Definition turn_messages (prompt scratchpad : pystr) : list Message :=
  [ {| role := str "system"; content := REACT_SYSTEM_PROMPT |};
    {| role := str "user";
       content := strip (str "User request: " ++ prompt ++ [nl; nl]
                         ++ scratchpad) |} ].

(** What one completed turn adds to the scratchpad. *)
Definition scratchpad_entry (t : ReactTurn) (observation : pystr) : pystr :=
  [nl] ++ str "Thought: " ++ thought t ++ [nl]
  ++ str "Action: " ++ action t ++ [nl]
  ++ str "Action Input: " ++ action_input t ++ [nl]
  ++ str "Observation: " ++ observation ++ [nl].

(** The [for] loop of [run] with [n] iterations left, followed by the
    forced synthesis. *)
Fixpoint react_loop (n : nat) (prompt scratchpad : pystr)
    (steps : list Step) : M (pystr * list Step) :=
  match n with
  | 0 => _force_finish prompt scratchpad steps
  | S n' =>
      let messages := turn_messages prompt scratchpad in
      '(llm_output, raw_response) <- call_chat messages ;;
      let steps := steps ++ [orchestrator_step messages raw_response] in
      let parsed := _parse_react_output llm_output in
      match finish_response parsed with
      | Some final_response => ret (final_response, steps)
      | None =>
          '(observation, steps) <-
             _execute_action (action parsed) (action_input parsed) steps ;;
          react_loop n' prompt
            (scratchpad ++ scratchpad_entry parsed observation) steps
      end
  end.

Definition run (prompt : pystr) : M (pystr * list Step) :=
  react_loop MAX_ITERATIONS prompt [] [].

(** The text-generation backend is scripted: it answers its calls, in
    order, with the entries of [script], whatever the messages are.
    [position] reads off a world how many entries have been served; the
    other collaborators leave it alone. *)
Definition scripted_generation (script : nat -> pystr * Raw)
    (position : World -> nat) : Prop :=
  (forall messages w, exists w',
      chat_with_raw_response messages w = (Ok (script (position w)), w')
      /\ position w' = S (position w))
  /\ (forall name task context w,
        position (snd (run_specialist name task context w)) = position w)
  /\ (forall query w,
        position (snd (get_nutrition_context query w)) = position w)
  /\ (forall query w,
        position (snd (get_research_context query w)) = position w).

(** No retrieval lookup raises. *)
Definition lookups_return : Prop :=
  forall query w,
    (exists r w', get_nutrition_context query w = (Ok r, w'))
    /\ (exists r w', get_research_context query w = (Ok r, w')).

(** [Served w evs records w']: the calls [evs], made in this order from
    the world [w], all came back, led to the world [w'], and left
    [records] in the trail: the orchestrator's record for a call to the
    text-generation backend, the specialist's own record or, when the
    specialist raised, the record of its failure for a call to a
    specialist, and nothing for a retrieval lookup. *)
Inductive Served : World -> list Event -> list Step -> World -> Prop :=
| served_none (w : World) : Served w [] [] w
| served_chat (w w1 w' : World) (messages : list Message) (text : pystr)
    (raw : Raw) (evs : list Event) (records : list Step) :
    chat_with_raw_response messages w = (Ok (text, raw), w1) ->
    Served w1 evs records w' ->
    Served w (EvChat messages :: evs)
      (orchestrator_step messages raw :: records) w'
| served_specialist (w w1 w' : World) (name task context response_text : pystr)
    (step_dict : Step) (evs : list Event) (records : list Step) :
    run_specialist name task context w = (Ok (response_text, step_dict), w1) ->
    Served w1 evs records w' ->
    Served w (EvSpecialist name task context :: evs) (step_dict :: records) w'
| served_specialist_error (w w1 w' : World) (name task context e : pystr)
    (evs : list Event) (records : list Step) :
    run_specialist name task context w = (Raise e, w1) ->
    Served w1 evs records w' ->
    Served w (EvSpecialist name task context :: evs)
      ({| module := name; prompt := PTask task; response := PError e |}
       :: records) w'
| served_nutrition (w w1 w' : World) (query r : pystr)
    (evs : list Event) (records : list Step) :
    get_nutrition_context query w = (Ok r, w1) ->
    Served w1 evs records w' ->
    Served w (EvNutrition query :: evs) records w'
| served_research (w w1 w' : World) (query r : pystr)
    (evs : list Event) (records : list Step) :
    get_research_context query w = (Ok r, w1) ->
    Served w1 evs records w' ->
    Served w (EvResearch query :: evs) records w'.

(** The call [ev], made from the world [w], raised [e] and left the world
    [w']; it was a call to the text-generation backend or a retrieval
    lookup. *)
Definition Failed (ev : Event) (w : World) (e : pystr) (w' : World) : Prop :=
  match ev with
  | EvChat messages => chat_with_raw_response messages w = (Raise e, w')
  | EvNutrition query => get_nutrition_context query w = (Raise e, w')
  | EvResearch query => get_research_context query w = (Raise e, w')
  | EvSpecialist _ _ _ => False
  end.
End Dispatch.

(* ================================================================== *)
(** * Reference readings of the parser and of letter case *)
(* ================================================================== *)

(** The text after the first occurrence of [marker], when there is one. *)
Fixpoint find_after (marker text : pystr) : option pystr :=
  if startswith text marker then Some (skipn (List.length marker) text)
  else match text with
       | [] => None
       | _ :: text' => find_after marker text'
       end.

(** The text after the last occurrence of [marker], when there is one. *)
Fixpoint find_after_last (marker text : pystr) : option pystr :=
  match text with
  | [] => if startswith text marker then Some [] else None
  | _ :: text' =>
      match find_after_last marker text' with
      | Some rest => Some rest
      | None =>
          if startswith text marker
          then Some (skipn (List.length marker) text)
          else None
      end
  end.

(** The text before the first occurrence of [marker], all of it when
    there is none. *)
Fixpoint cut_at (marker text : pystr) : pystr :=
  if startswith text marker then []
  else match text with
       | [] => []
       | c :: text' => c :: cut_at marker text'
       end.

Definition or_empty (o : option pystr) : pystr :=
  match o with Some s => s | None => [] end.

(** The parser as the specification words it: the fields are delimited
    by the bare markers, and the action input starts after the last
    [Action Input:]. *)
Definition parse_as_specified (text : pystr) : ReactTurn :=
  {| thought :=
       or_empty (option_map (fun rest => strip (cut_at (str "Action:") rest))
                            (find_after (str "Thought:") text));
     action :=
       or_empty (option_map
                   (fun rest => strip (cut_at (str "Action Input:") rest))
                   (find_after (str "Action:") text));
     action_input :=
       or_empty (option_map strip
                   (find_after_last (str "Action Input:") text)) |}.

(** A text on which the parser and the wording of the specification
    part ways: the three markers on one line, and [Action Input:] twice. *)
Definition disputed_text : pystr :=
  str "Thought: t Action: go Action Input: a Action Input: b".

(** The upper-case form of a lower-case letter a..z. *)
Definition upper_char (c : ascii) : ascii :=
  let n := N_of_ascii c in
  if ((97 <=? n) && (n <=? 122))%N then ascii_of_N (n - 32) else c.

(** [t] is [k] with some of its letters in upper case. *)
Fixpoint case_variant (t k : pystr) : bool :=
  match t, k with
  | [], [] => true
  | a :: t', b :: k' =>
      (Ascii.eqb a b || Ascii.eqb a (upper_char b)) && case_variant t' k'
  | _, _ => false
  end.

(** What the lookahead [(?=marker|\Z)] tests: the text goes on with the
    marker, or it ends. *)
Definition at_marker_or_end (mk s : pystr) : bool :=
  startswith s mk || match s with [] => true | _ :: _ => false end.

(** No whitespace at either end: [t.strip() == t]. *)
Definition trimmed (t : pystr) : bool :=
  match t with
  | [] => true
  | c :: _ => negb (py_isspace c) && negb (py_isspace (last t c))
  end.

(* ================================================================== *)
(** * A scripted set of collaborators

    The text-generation backend answers its n-th call with the n-th text
    of a script; the world is the number of calls it has served. The
    Wellness Coach is out of service, the other specialists answer, and
    only the research index has data. *)
(* ================================================================== *)

Definition scripted_specialist (name task context : pystr) (w : nat)
    : result (pystr * StepRecord nat) * nat :=
  if str_eqb name (str "Wellness Coach")
  then (Raise (str "service unavailable"), w)
  else (Ok (str "Advice on " ++ task,
            {| module := name;
               prompt := PTask task;
               response := PRaw w |}), w).

Definition scripted (script : nat -> pystr) : Backends :=
  {| World := nat;
     Raw := nat;
     chat_with_raw_response := fun _ w => (Ok (script w, w), S w);
     run_specialist := scripted_specialist;
     get_nutrition_context := fun _ w => (Ok [], w);
     get_research_context := fun q w => (Ok (str "PubMed: " ++ q), w);
     REACT_SYSTEM_PROMPT := str "You are the Head Coach of Vita." |}.

Definition turn_text (thought action action_input : pystr) : pystr :=
  str "Thought: " ++ thought ++ [nl] ++ str "Action: " ++ action ++ [nl]
  ++ str "Action Input: " ++ action_input.

(** A script that never finishes. *)
Definition busy_script (n : nat) : pystr :=
  match n with
  | 0 => turn_text (str "look it up") (str "search_nutrition(banana calories)") []
  | 1 => turn_text (str "ask") (str "call_specialist(coach, plan my week)") []
  | 2 => turn_text (str "done?") (str "finish()") (str "almost")
  | _ => turn_text (str "hm") (str "dance") []
  end.

(** A turn that finishes with a greeting, and the script that opens
    with it. *)
Definition hello_text : pystr :=
  str "Thought: x" ++ [nl] ++ str "Action: finish(Hello there!)" ++ [nl]
  ++ str "Action Input:".

Definition hello_script (n : nat) : pystr := hello_text.

(* ================================================================== *)
(** * Further reference definitions *)
(* ================================================================== *)

Definition is_specialist (e : Event) : bool :=
  match e with EvSpecialist _ _ _ => true | _ => false end.

(** [sub in s]: [sub] occurs somewhere in [s]. *)
Fixpoint contains (s sub : pystr) : bool :=
  startswith s sub
  || match s with
     | [] => false
     | _ :: s' => contains s' sub
     end.

(** No comma anywhere in the text. *)
Definition no_comma (s : pystr) : bool :=
  forallb (fun c => negb (Ascii.eqb c ","%char)) s.

(** The three canonical specialist names. *)
Definition canonical_names : list pystr :=
  [str "Nutrition Expert"; str "Science Researcher"; str "Wellness Coach"].

(** Scripted collaborators whose text-generation backend is lost from
    its [k]-th call on. *)
Definition outage (k : nat) (script : nat -> pystr) : Backends :=
  {| World := nat;
     Raw := nat;
     chat_with_raw_response :=
       fun _ w =>
         if Nat.leb k w then (Raise (str "connection lost"), S w)
         else (Ok (script w, w), S w);
     run_specialist := scripted_specialist;
     get_nutrition_context := fun _ w => (Ok [], w);
     get_research_context := fun q w => (Ok (str "PubMed: " ++ q), w);
     REACT_SYSTEM_PROMPT := str "You are the Head Coach of Vita." |}.

(** Scripted collaborators whose nutrition index is offline. *)
Definition offline_index (script : nat -> pystr) : Backends :=
  {| World := nat;
     Raw := nat;
     chat_with_raw_response := fun _ w => (Ok (script w, w), S w);
     run_specialist := scripted_specialist;
     get_nutrition_context := fun _ w => (Raise (str "index offline"), w);
     get_research_context := fun q w => (Ok (str "PubMed: " ++ q), w);
     REACT_SYSTEM_PROMPT := str "You are the Head Coach of Vita." |}.

(* ================================================================== *)
(** * Facts about strings *)
(* ================================================================== *)

Lemma str_eqb_refl (a : pystr) : str_eqb a a = true.
Proof.
  induction a as [|x a IH]; simpl; [reflexivity|].
  now rewrite Ascii.eqb_refl.
Qed.

Lemma str_eqb_eq (a b : pystr) : str_eqb a b = true <-> a = b.
Proof.
  split; [|intros ->; apply str_eqb_refl].
  revert b; induction a as [|x a IH]; intros [|y b]; simpl;
    try discriminate; [reflexivity|].
  intros H. apply andb_true_iff in H as [Hx Hab].
  apply Ascii.eqb_eq in Hx. f_equal; auto.
Qed.

Lemma str_eqb_neq (a b : pystr) : str_eqb a b = false <-> a <> b.
Proof.
  split.
  - intros H E. apply str_eqb_eq in E. congruence.
  - intros H. destruct (str_eqb a b) eqn:E; [|reflexivity].
    apply str_eqb_eq in E. contradiction.
Qed.

Lemma lstrip_spaces (l s : pystr) :
  forallb py_isspace l = true -> lstrip (l ++ s) = lstrip s.
Proof.
  induction l as [|c l IH]; simpl; [reflexivity|].
  intros H. apply andb_true_iff in H as [Hc Hl]. now rewrite Hc, IH.
Qed.

Lemma lstrip_all_spaces (l : pystr) :
  forallb py_isspace l = true -> lstrip l = [].
Proof.
  intros H. rewrite <- (app_nil_r l). now rewrite lstrip_spaces.
Qed.

Lemma lstrip_cons_keep (c : ascii) (s : pystr) :
  py_isspace c = false -> lstrip (c :: s) = c :: s.
Proof. intros H; simpl; now rewrite H. Qed.

(** What [lstrip] leaves starts with a character that is not a space. *)
Lemma lstrip_head (s : pystr) :
  match lstrip s with
  | [] => True
  | c :: _ => py_isspace c = false
  end.
Proof.
  induction s as [|c s IH]; simpl; [exact I|].
  destruct (py_isspace c) eqn:E; [exact IH | exact E].
Qed.

Lemma lstrip_idem (s : pystr) : lstrip (lstrip s) = lstrip s.
Proof.
  pose proof (lstrip_head s) as H.
  destruct (lstrip s) as [|c r]; [reflexivity|].
  now apply lstrip_cons_keep.
Qed.

(** [lstrip] cuts off a run of spaces and keeps the rest. *)
Lemma lstrip_split (s : pystr) :
  exists ws, s = ws ++ lstrip s /\ forallb py_isspace ws = true.
Proof.
  induction s as [|c s (ws & E & Hws)]; simpl.
  - now exists [].
  - destruct (py_isspace c) eqn:Hc.
    + exists (c :: ws); simpl. rewrite Hc, Hws. split; [now f_equal | reflexivity].
    + now exists [].
Qed.

Lemma lstrip_snoc (a : pystr) (c : ascii) :
  lstrip (a ++ [c]) =
  match lstrip a with
  | [] => if py_isspace c then [] else [c]
  | x :: r => (x :: r) ++ [c]
  end.
Proof.
  induction a as [|x a IH]; simpl; [reflexivity|].
  destruct (py_isspace x); [exact IH | reflexivity].
Qed.

Lemma rstrip_cons (c : ascii) (s : pystr) :
  rstrip (c :: s) =
  match rstrip s with
  | [] => if py_isspace c then [] else [c]
  | x :: r => c :: x :: r
  end.
Proof.
  unfold rstrip; simpl. rewrite lstrip_snoc.
  destruct (lstrip (rev s)) as [|y r] eqn:E; simpl.
  - now destruct (py_isspace c).
  - rewrite rev_app_distr; simpl.
    destruct (rev r ++ [y]) eqn:E'; [now destruct (rev r)|reflexivity].
Qed.

Lemma rstrip_spaces (s r : pystr) :
  forallb py_isspace r = true -> rstrip (s ++ r) = rstrip s.
Proof.
  intros H. unfold rstrip. rewrite rev_app_distr, lstrip_spaces; [reflexivity|].
  rewrite forallb_forall in *. intros x Hx. apply H. now apply in_rev.
Qed.

Lemma rstrip_idem (s : pystr) : rstrip (rstrip s) = rstrip s.
Proof. unfold rstrip. now rewrite rev_involutive, lstrip_idem. Qed.

(** [rstrip] keeps a first character that is not a space. *)
Lemma rstrip_cons_keep (c : ascii) (s : pystr) :
  py_isspace c = false -> rstrip (c :: s) = c :: rstrip s.
Proof.
  intros H. rewrite rstrip_cons, H. now destruct (rstrip s).
Qed.

Lemma lstrip_rstrip_lstrip (s : pystr) :
  lstrip (rstrip (lstrip s)) = rstrip (lstrip s).
Proof.
  pose proof (lstrip_head s) as H.
  destruct (lstrip s) as [|c r]; [reflexivity|].
  rewrite (rstrip_cons_keep c r H). now apply lstrip_cons_keep.
Qed.

Lemma strip_idem (s : pystr) : strip (strip s) = strip s.
Proof.
  unfold strip. now rewrite lstrip_rstrip_lstrip, rstrip_idem.
Qed.

Lemma strip_all_spaces (s : pystr) :
  forallb py_isspace s = true -> strip s = [].
Proof. intros H. unfold strip. now rewrite lstrip_all_spaces. Qed.

Lemma strip_leading_spaces (l s : pystr) :
  forallb py_isspace l = true -> strip (l ++ s) = strip s.
Proof. intros H. unfold strip. now rewrite lstrip_spaces. Qed.

Lemma strip_lstrip (s : pystr) : strip (lstrip s) = strip s.
Proof. unfold strip. now rewrite lstrip_idem. Qed.

Lemma rstrip_last_keep (s : pystr) (c : ascii) :
  py_isspace c = false -> rstrip (s ++ [c]) = s ++ [c].
Proof.
  intros H. unfold rstrip. rewrite rev_app_distr; simpl. rewrite H; simpl.
  now rewrite rev_involutive.
Qed.

Lemma trimmed_rstrip (c : ascii) (t : pystr) :
  py_isspace (last (c :: t) c) = false -> rstrip (c :: t) = c :: t.
Proof.
  intros H.
  destruct (@exists_last _ (c :: t)) as (s & x & E); [discriminate|].
  rewrite E in *. rewrite last_last in H. now apply rstrip_last_keep.
Qed.

(** A trimmed text comes back from [strip] whatever spaces surround it. *)
Lemma strip_surrounded (l t r : pystr) :
  trimmed t = true ->
  forallb py_isspace l = true -> forallb py_isspace r = true ->
  strip (l ++ t ++ r) = t.
Proof.
  intros Ht Hl Hr. rewrite strip_leading_spaces by assumption.
  destruct t as [|c t]; simpl in *.
  - now apply strip_all_spaces.
  - apply andb_true_iff in Ht as [Hc Hlast].
    apply negb_true_iff in Hc. apply negb_true_iff in Hlast.
    unfold strip. rewrite (lstrip_cons_keep c _ Hc).
    change (c :: t ++ r) with ((c :: t) ++ r).
    rewrite rstrip_spaces by assumption. now apply trimmed_rstrip.
Qed.

(* ================================================================== *)
(** * The specialist-name normaliser *)
(* ================================================================== *)

Lemma lower_upper_char (b : ascii) : lower_char (upper_char b) = lower_char b.
Proof. destruct b as [[] [] [] [] [] [] [] []]; reflexivity. Qed.

Lemma isspace_upper_char (b : ascii) : py_isspace (upper_char b) = py_isspace b.
Proof. destruct b as [[] [] [] [] [] [] [] []]; reflexivity. Qed.

Lemma case_variant_char (a b : ascii) :
  Ascii.eqb a b || Ascii.eqb a (upper_char b) = true ->
  lower_char a = lower_char b /\ py_isspace a = py_isspace b.
Proof.
  intros H. apply orb_true_iff in H as [H|H]; apply Ascii.eqb_eq in H; subst.
  - now split.
  - split; [apply lower_upper_char | apply isspace_upper_char].
Qed.

Lemma case_variant_lower (t k : pystr) :
  case_variant t k = true -> lower t = lower k.
Proof.
  revert k; induction t as [|a t IH]; intros [|b k]; simpl;
    try discriminate; [reflexivity|].
  intros H. apply andb_true_iff in H as [Hab Htk].
  apply case_variant_char in Hab as [-> _]. f_equal. now apply IH.
Qed.

Lemma case_variant_last (t k : pystr) :
  case_variant t k = true ->
  forall a b, py_isspace a = py_isspace b ->
  py_isspace (last t a) = py_isspace (last k b).
Proof.
  revert k; induction t as [|x t IH]; intros [|y k]; simpl;
    try discriminate; [intros _ a b E; exact E|].
  intros H a b E. apply andb_true_iff in H as [Hxy Htk].
  apply case_variant_char in Hxy as [_ Hs].
  destruct t as [|x' t]; destruct k as [|y' k]; try discriminate Htk;
    [exact Hs|].
  now apply (IH (y' :: k)).
Qed.

Lemma case_variant_trimmed (t k : pystr) :
  case_variant t k = true -> trimmed t = trimmed k.
Proof.
  intros H. destruct t as [|x t]; destruct k as [|y k]; try discriminate H;
    [reflexivity|].
  unfold trimmed. pose proof H as H'. simpl in H'.
  apply andb_true_iff in H' as [Hxy _].
  apply case_variant_char in Hxy as [_ Hs].
  now rewrite (case_variant_last _ _ H x y Hs), Hs.
Qed.

(** Every key of the alias table is trimmed and in lower case, and the
    table maps it to the name listed with it. *)
Lemma alias_keys :
  Forall (fun kv => trimmed (fst kv) = true /\ lower (fst kv) = fst kv
                    /\ dict_get _SPECIALIST_ALIASES (fst kv) = Some (snd kv))
         _SPECIALIST_ALIASES.
Proof. repeat constructor. Qed.

(** Every canonical name of the alias table normalises to itself. *)
Lemma alias_values_fixed :
  Forall (fun kv => _normalize_specialist (snd kv) = snd kv)
         _SPECIALIST_ALIASES.
Proof. repeat constructor. Qed.

Lemma dict_get_In (d : list (pystr * pystr)) (key v : pystr) :
  dict_get d key = Some v -> In (key, v) d.
Proof.
  induction d as [|[k x] d IH]; simpl; [discriminate|].
  destruct (str_eqb key k) eqn:E.
  - intros [= ->]. apply str_eqb_eq in E. subst. now left.
  - intros H. right. now apply IH.
Qed.

(** C6. For every alias of the table, written in any letter case and with
    any whitespace around it, the normaliser returns the alias's canonical
    name; for every name whose trimmed lower-case form is not a key of the
    table, it returns the name trimmed, its letter case untouched. *)
Theorem normalize_alias_or_trimmed :
  (forall k v t l r,
      In (k, v) _SPECIALIST_ALIASES ->
      case_variant t k = true ->
      forallb py_isspace l = true -> forallb py_isspace r = true ->
      _normalize_specialist (l ++ t ++ r) = v)
  /\ (forall name,
        dict_get _SPECIALIST_ALIASES (lower (strip name)) = None ->
        _normalize_specialist name = strip name).
Proof.
  split.
  - intros k v t l r Hin Hcase Hl Hr.
    pose proof alias_keys as Hkeys. rewrite Forall_forall in Hkeys.
    destruct (Hkeys _ Hin) as (Htrim & Hlow & Hget).
    cbn [fst snd] in Htrim, Hlow, Hget.
    unfold _normalize_specialist.
    rewrite strip_surrounded; try assumption.
    + now rewrite (case_variant_lower _ _ Hcase), Hlow, Hget.
    + now rewrite (case_variant_trimmed _ _ Hcase).
  - intros name H. unfold _normalize_specialist. now rewrite H.
Qed.

Lemma normalize_alias_or_trimmed_witness :
  _normalize_specialist (str "  NuTRition Expert ") = str "Nutrition Expert"
  /\ _normalize_specialist (str " Dr. Who  ") = str "Dr. Who".
Proof.
  split.
  - apply (proj1 normalize_alias_or_trimmed
             (str "nutrition expert") (str "Nutrition Expert")
             (str "NuTRition Expert") (str "  ") (str " "));
      [simpl; tauto | reflexivity | reflexivity | reflexivity].
  - apply (proj2 normalize_alias_or_trimmed (str " Dr. Who  ")).
    reflexivity.
Defined.

(** C10. The normaliser is idempotent, and every canonical specialist
    name of the alias table normalises to itself. *)
Theorem normalize_idempotent :
  (forall name,
      _normalize_specialist (_normalize_specialist name)
      = _normalize_specialist name)
  /\ Forall (fun kv => _normalize_specialist (snd kv) = snd kv)
            _SPECIALIST_ALIASES.
Proof.
  split; [|exact alias_values_fixed].
  intros name. unfold _normalize_specialist at 2 3.
  destruct (dict_get _SPECIALIST_ALIASES (lower (strip name))) as [v|] eqn:E.
  - apply dict_get_In in E.
    pose proof alias_values_fixed as H. rewrite Forall_forall in H.
    exact (H _ E).
  - unfold _normalize_specialist. now rewrite strip_idem, E.
Qed.

(* ================================================================== *)
(** * Facts about the matcher *)
(* ================================================================== *)

Lemma startswith_length (s p : pystr) :
  startswith s p = true -> List.length p <= List.length s.
Proof.
  revert s; induction p as [|x p IH]; intros [|y s]; simpl;
    try discriminate; try lia.
  intros H. apply andb_true_iff in H as [_ H]. apply IH in H. lia.
Qed.

Lemma startswith_app (s p : pystr) :
  startswith s p = true -> s = p ++ skipn (List.length p) s.
Proof.
  revert s; induction p as [|x p IH]; intros [|y s]; simpl;
    try discriminate; try reflexivity.
  intros H. apply andb_true_iff in H as [Hx H].
  apply Ascii.eqb_eq in Hx. subst. f_equal. now apply IH.
Qed.

Lemma startswith_prefix (p s : pystr) : startswith (p ++ s) p = true.
Proof.
  induction p as [|x p IH]; simpl; [reflexivity|].
  now rewrite Ascii.eqb_refl.
Qed.

Lemma rmatch_seq (r1 r2 : regex) (s : pystr) (m : captures) (k : cont) :
  rmatch (r1 +++ r2) s m k = rmatch r1 s m (fun s' m' => rmatch r2 s' m' k).
Proof. reflexivity. Qed.

Lemma rmatch_spaces (s : pystr) (m : captures) (k : cont) :
  rmatch (RRep true 0 CSpace) s m k = rep_greedy CSpace 0 s m k.
Proof. reflexivity. Qed.

(** A literal run matches exactly the texts that start with it. *)
Lemma rmatch_lit (p s : pystr) (m : captures) (k : cont) :
  rmatch (lit false p) s m k =
  if startswith s p then k (skipn (List.length p) s) m else None.
Proof.
  revert s; induction p as [|x p IH]; intros s; simpl; [reflexivity|].
  destruct s as [|y s]; [reflexivity|].
  rewrite (Ascii.eqb_sym x y).
  destruct (Ascii.eqb y x); simpl; [apply IH | reflexivity].
Qed.

(** Under re.IGNORECASE a literal run matches a text that starts with the
    run in some letter case. *)
Lemma rmatch_lit_ci (p a s : pystr) (m : captures) (k : cont) :
  lower a = lower p ->
  rmatch (lit true p) (a ++ s) m k = k s m.
Proof.
  revert a; induction p as [|x p IH]; intros [|y a]; simpl;
    try discriminate; [reflexivity|].
  intros [= Hy Ha]. rewrite Hy, Ascii.eqb_refl. now apply IH.
Qed.

Lemma rmatch_lookahead (mk s : pystr) (m : captures) (k : cont) :
  rmatch (RLook (RAlt (lit false mk) REndZ)) s m k =
  if at_marker_or_end mk s then k s m else None.
Proof.
  unfold at_marker_or_end. simpl. rewrite rmatch_lit.
  destruct (startswith s mk); simpl; [reflexivity|].
  now destruct s.
Qed.

(** A greedy repetition that has taken all it can, and whose rest of the
    pattern then matches, is done. *)
Lemma rep_greedy_stop (cs : cset) (ws body : pystr) (m x : captures)
    (k : cont) :
  forallb (cset_mem cs) ws = true ->
  match body with [] => True | ch :: _ => cset_mem cs ch = false end ->
  k body m = Some x ->
  rep_greedy cs 0 (ws ++ body) m k = Some x.
Proof.
  intros Hws Hbody Hk. induction ws as [|c ws IH]; simpl.
  - destruct body as [|ch body]; simpl; [exact Hk|]. now rewrite Hbody.
  - simpl in Hws. apply andb_true_iff in Hws as [Hc Hws].
    now rewrite Hc, (IH Hws).
Qed.

(** A greedy repetition that ran to the end of the text gives back its
    last character when the rest of the pattern needs one. *)
Lemma rep_greedy_give_back (cs : cset) (ws : pystr) (c : ascii)
    (m x : captures) (k : cont) :
  forallb (cset_mem cs) (ws ++ [c]) = true ->
  k [] m = None -> k [c] m = Some x ->
  rep_greedy cs 0 (ws ++ [c]) m k = Some x.
Proof.
  intros Hws Hnil Hc. induction ws as [|a ws IH]; simpl in *.
  - apply andb_true_iff in Hws as [Hm _]. now rewrite Hm, Hnil.
  - apply andb_true_iff in Hws as [Ha Hws]. now rewrite Ha, (IH Hws).
Qed.

(** A greedy repetition fails when the rest of the pattern fails after
    every run of characters it may take. *)
Lemma rep_greedy_none (cs : cset) (s : pystr) (m : captures) (k : cont) :
  (forall a b, s = a ++ b -> forallb (cset_mem cs) a = true -> k b m = None) ->
  rep_greedy cs 0 s m k = None.
Proof.
  induction s as [|ch s IH]; intros H; simpl.
  - now apply (H [] []).
  - rewrite (H [] (ch :: s)) by reflexivity.
    destruct (cset_mem cs ch) eqn:E; [|reflexivity].
    rewrite IH; [reflexivity|].
    intros a b -> Ha. apply (H (ch :: a) b); [reflexivity|].
    simpl. now rewrite E.
Qed.

(** [.+] takes the whole text. *)
Lemma rep_greedy_any_all (s : pystr) (least : nat) (m x : captures)
    (k : cont) :
  least <= List.length s -> k [] m = Some x ->
  rep_greedy CAny least s m k = Some x.
Proof.
  intros Hle Hk. revert least Hle.
  induction s as [|ch s IH]; intros least Hle; simpl in *.
  - now replace least with 0 by lia.
  - rewrite IH by lia. reflexivity.
Qed.

(** A lazy [.*?] stops at the first place where the text goes on with the
    marker or ends, and the group holds what was passed over. *)
Lemma rep_lazy_cut (mk s pre : pystr) (m : captures) (k : cont) :
  (forall s' m',
      k s' m' = if at_marker_or_end mk s'
                then Some ((1, firstn (List.length (pre ++ s) - List.length s')
                                      (pre ++ s)) :: m')
                else None) ->
  rep_lazy CAny 0 s m k = Some ((1, pre ++ cut_at mk s) :: m).
Proof.
  revert pre; induction s as [|ch s IH]; intros pre Hk.
  - simpl. rewrite Hk. unfold at_marker_or_end. rewrite orb_true_r.
    rewrite Nat.sub_0_r, firstn_all.
    now destruct (startswith [] mk).
  - cbn [rep_lazy]. rewrite Hk. unfold at_marker_or_end at 1.
    rewrite orb_false_r.
    replace (firstn _ _) with pre.
    2:{ rewrite length_app, Nat.add_sub. rewrite firstn_app, firstn_all.
        now rewrite Nat.sub_diag, app_nil_r. }
    cbn [cut_at]. destruct (startswith (ch :: s) mk); simpl.
    + now rewrite app_nil_r.
    + rewrite (IH (pre ++ [ch])).
      * now rewrite <- app_assoc.
      * intros s' m'. rewrite Hk. now rewrite <- app_assoc.
Qed.

(* ================================================================== *)
(** * The output parser *)
(* ================================================================== *)

(** A pattern that opens with a literal marker is found at the first
    occurrence of the marker, when the rest of the pattern matches every
    text that is not empty and fails on the empty text. *)
Lemma field_after_marker (p : pystr) (r : regex) (F : pystr -> pystr) :
  p <> [] -> F [] = [] ->
  rmatch r [] [] accept = None ->
  (forall rest, rest <> [] ->
     exists m, rmatch r rest [] accept = Some m /\ strip (group 1 m) = F rest) ->
  forall text,
    field (lit false p +++ r) text = or_empty (option_map F (find_after p text)).
Proof.
  intros Hp HF Hnil Hsome.
  assert (Hshort : forall s, List.length s < List.length p ->
                             re_search (lit false p +++ r) s = None).
  { induction s as [|c s IH]; intros Hlen; simpl;
      unfold re_match; simpl; rewrite rmatch_lit.
    - destruct p; [contradiction | reflexivity].
    - destruct (startswith (c :: s) p) eqn:E.
      + apply startswith_length in E. simpl in *. lia.
      + simpl. apply IH. simpl in Hlen. lia. }
  induction text as [|c text IH].
  - unfold field; simpl. unfold re_match; simpl. rewrite rmatch_lit.
    destruct p; [contradiction | reflexivity].
  - unfold field in *. cbn [re_search find_after].
    unfold re_match at 1. cbn [rmatch]. rewrite rmatch_lit.
    destruct (startswith (c :: text) p) eqn:E; cbn [or_else].
    + destruct (skipn (List.length p) (c :: text)) as [|x rest] eqn:Er.
      * rewrite Hnil; cbn [or_else option_map or_empty]. rewrite HF.
        rewrite Hshort; [reflexivity|].
        pose proof (startswith_length _ _ E) as Hle.
        apply (f_equal (@List.length ascii)) in Er.
        rewrite length_skipn in Er. cbn [List.length] in Er, Hle.
        cbn [List.length]. lia.
      * destruct (Hsome (x :: rest)) as (m & Hm & Hg); [discriminate|].
        rewrite Hm; cbn [or_else option_map or_empty]. exact Hg.
    + exact IH.
Qed.

(** The group [(.+?)] followed by the lookahead [(?=marker|\Z)], on a
    text that is not empty. *)
Lemma lazy_group_match (mk s : pystr) (ch : ascii) (m : captures) :
  rmatch (RGroup 1 (RRep false 1 CAny) +++ RLook (RAlt (lit false mk) REndZ))
         (ch :: s) m accept
  = Some ((1, ch :: cut_at mk s) :: m).
Proof.
  change (rep_lazy CAny 0 s m
            (fun s' m' =>
               rmatch (RLook (RAlt (lit false mk) REndZ)) s'
                 ((1, firstn (List.length ([ch] ++ s) - List.length s')
                             ([ch] ++ s)) :: m') accept)
          = Some ((1, [ch] ++ cut_at mk s) :: m)).
  apply rep_lazy_cut.
  intros s' m'. rewrite rmatch_lookahead. reflexivity.
Qed.

Lemma cut_at_nil (c0 : ascii) (mk : pystr) : cut_at (c0 :: mk) [] = [].
Proof. reflexivity. Qed.

Lemma cut_at_keep (c0 ch : ascii) (mk s : pystr) :
  py_isspace c0 = true -> py_isspace ch = false ->
  cut_at (c0 :: mk) (ch :: s) = ch :: cut_at (c0 :: mk) s.
Proof.
  intros H0 Hch. cbn [cut_at startswith].
  destruct (Ascii.eqb c0 ch) eqn:E; [|reflexivity].
  apply Ascii.eqb_eq in E. subst. congruence.
Qed.

(** What follows the marker in the thought and action patterns:
    [\s*(.+?)(?=marker|\Z)], for a marker that opens with a newline. *)
Lemma lazy_tail_match (c0 : ascii) (mk rest : pystr) :
  py_isspace c0 = true -> rest <> [] ->
  exists m,
    rmatch (RRep true 0 CSpace +++ RGroup 1 (RRep false 1 CAny)
            +++ RLook (RAlt (lit false (c0 :: mk)) REndZ)) rest [] accept
    = Some m
    /\ strip (group 1 m) = strip (cut_at (c0 :: mk) (lstrip rest)).
Proof.
  intros H0 Hrest.
  destruct (lstrip_split rest) as (ws & E & Hws).
  pose proof (lstrip_head rest) as Hhead.
  destruct (lstrip rest) as [|ch body].
  - rewrite app_nil_r in E. subst ws.
    destruct (@exists_last _ rest Hrest) as (ws & c & ->).
    exists [(1, [c])]. split.
    + rewrite rmatch_seq, rmatch_spaces.
      apply rep_greedy_give_back; [exact Hws | reflexivity |].
      cbv beta. apply lazy_group_match.
    + cbn [group Nat.eqb]. rewrite cut_at_nil. apply strip_all_spaces.
      rewrite forallb_app in Hws. apply andb_true_iff in Hws as [_ Hc].
      exact Hc.
  - exists [(1, ch :: cut_at (c0 :: mk) body)]. split.
    + rewrite E, rmatch_seq, rmatch_spaces.
      apply rep_greedy_stop; [exact Hws | exact Hhead |].
      cbv beta. apply lazy_group_match.
    + cbn [group Nat.eqb]. now rewrite cut_at_keep.
Qed.

(** What follows the marker in the action-input pattern: [\s*(.+)]. *)
Lemma greedy_tail_match (rest : pystr) :
  rest <> [] ->
  exists m,
    rmatch (RRep true 0 CSpace +++ RGroup 1 (RRep true 1 CAny)) rest [] accept
    = Some m
    /\ strip (group 1 m) = strip rest.
Proof.
  intros Hrest.
  assert (Hgroup : forall ch s,
             rmatch (RGroup 1 (RRep true 1 CAny)) (ch :: s) [] accept
             = Some [(1, ch :: s)]).
  { intros ch s. cbn [rmatch].
    rewrite (@rep_greedy_any_all (ch :: s) 1 [] [(1, ch :: s)]);
      [reflexivity | simpl; lia |].
    unfold accept. now rewrite Nat.sub_0_r, firstn_all. }
  destruct (lstrip_split rest) as (ws & E & Hws).
  pose proof (lstrip_head rest) as Hhead.
  destruct (lstrip rest) as [|ch body] eqn:El.
  - rewrite app_nil_r in E. subst ws.
    rewrite (strip_all_spaces _ Hws).
    destruct (@exists_last _ rest Hrest) as (ws & c & ->).
    exists [(1, [c])]. split.
    + rewrite rmatch_seq, rmatch_spaces.
      apply rep_greedy_give_back; [exact Hws | reflexivity |].
      cbv beta. apply Hgroup.
    + cbn [group Nat.eqb]. apply strip_all_spaces.
      rewrite forallb_app in Hws. apply andb_true_iff in Hws as [_ Hc].
      exact Hc.
  - exists [(1, ch :: body)]. split.
    + rewrite E, rmatch_seq, rmatch_spaces.
      apply rep_greedy_stop; [exact Hws | exact Hhead |].
      cbv beta. apply Hgroup.
    + cbn [group Nat.eqb]. now rewrite <- El, strip_lstrip.
Qed.

(** C3, as stated, fails: thought and action do not end at a marker
    inside a line, and the action input starts after the first
    [Action Input:]. *)
Lemma parse_differs_from_specified :
  _parse_react_output disputed_text
  = {| thought := str "t Action: go Action Input: a Action Input: b";
       action := str "go Action Input: a Action Input: b";
       action_input := str "a Action Input: b" |}
  /\ parse_as_specified disputed_text
     = {| thought := str "t"; action := str "go"; action_input := str "b" |}.
Proof. split; vm_compute; reflexivity. Qed.

Lemma thought_by_marker (text : pystr) :
  thought (_parse_react_output text)
  = or_empty (option_map
                (fun rest => strip (cut_at (nl :: str "Action:") (lstrip rest)))
                (find_after (str "Thought:") text)).
Proof.
  apply (field_after_marker (str "Thought:") _
           (fun rest => strip (cut_at (nl :: str "Action:") (lstrip rest))));
    [discriminate | reflexivity | reflexivity |].
  intros rest Hrest. now apply lazy_tail_match.
Qed.

Lemma action_by_marker (text : pystr) :
  action (_parse_react_output text)
  = or_empty (option_map
                (fun rest =>
                   strip (cut_at (nl :: str "Action Input:") (lstrip rest)))
                (find_after (str "Action:") text)).
Proof.
  apply (field_after_marker (str "Action:") _
           (fun rest =>
              strip (cut_at (nl :: str "Action Input:") (lstrip rest))));
    [discriminate | reflexivity | reflexivity |].
  intros rest Hrest. now apply lazy_tail_match.
Qed.

Lemma action_input_by_marker (text : pystr) :
  action_input (_parse_react_output text)
  = or_empty (option_map strip (find_after (str "Action Input:") text)).
Proof.
  apply (field_after_marker (str "Action Input:") _ strip);
    [discriminate | reflexivity | reflexivity |].
  intros rest Hrest. now apply greedy_tail_match.
Qed.

(** Skipping the whitespace in front of a field changes nothing when
    the field is not blank, or when no marker line follows. *)
Lemma cut_after_spaces (mk rest : pystr) :
  strip (cut_at mk rest) <> [] \/ contains rest mk = false ->
  strip (cut_at mk (lstrip rest)) = strip (cut_at mk rest).
Proof.
  induction rest as [|c rest IH]; [reflexivity|].
  intros H. cbn [lstrip]. destruct (py_isspace c) eqn:Hc; [|reflexivity].
  assert (Hsp : forall x, strip (c :: x) = strip x).
  { intros x. apply (strip_leading_spaces [c] x). simpl. now rewrite Hc. }
  cbn [cut_at] in *. cbn [contains] in H.
  destruct (startswith (c :: rest) mk) eqn:E.
  - exfalso. destruct H as [H|H]; [now apply H | discriminate H].
  - rewrite Hsp in *. apply IH. destruct H as [H|H]; [now left | now right].
Qed.

(** C3, amended. For every text the parser returns: as thought, the
    trimmed text after the first [Thought:] up to the next newline that is
    followed by [Action:], or to the end, whenever that text is not blank
    or no such line follows; as action, the same for the first [Action:]
    and a newline followed by [Action Input:]; as action input, the
    trimmed text after the first [Action Input:] to the end. A field whose
    marker is missing is the empty string, and the parser is total. *)
Theorem parse_react_output_fields (text : pystr) :
  (forall rest,
      find_after (str "Thought:") text = Some rest ->
      strip (cut_at (nl :: str "Action:") rest) <> []
      \/ contains rest (nl :: str "Action:") = false ->
      thought (_parse_react_output text)
      = strip (cut_at (nl :: str "Action:") rest))
  /\ (forall rest,
        find_after (str "Action:") text = Some rest ->
        strip (cut_at (nl :: str "Action Input:") rest) <> []
        \/ contains rest (nl :: str "Action Input:") = false ->
        action (_parse_react_output text)
        = strip (cut_at (nl :: str "Action Input:") rest))
  /\ action_input (_parse_react_output text)
     = or_empty (option_map strip (find_after (str "Action Input:") text))
  /\ (find_after (str "Thought:") text = None ->
      thought (_parse_react_output text) = [])
  /\ (find_after (str "Action:") text = None ->
      action (_parse_react_output text) = [])
  /\ (find_after (str "Action Input:") text = None ->
      action_input (_parse_react_output text) = []).
Proof.
  rewrite thought_by_marker, action_by_marker, action_input_by_marker.
  repeat split.
  - intros rest -> H. cbn [option_map or_empty]. now apply cut_after_spaces.
  - intros rest -> H. cbn [option_map or_empty]. now apply cut_after_spaces.
  - now intros ->.
  - now intros ->.
  - now intros ->.
Qed.

Lemma parse_react_output_witness :
  thought (_parse_react_output disputed_text)
  = str "t Action: go Action Input: a Action Input: b"
  /\ action (_parse_react_output (str "Thought: just thinking")) = [].
Proof.
  destruct (parse_react_output_fields disputed_text) as (Ht & _).
  destruct (parse_react_output_fields (str "Thought: just thinking"))
    as (_ & _ & _ & _ & Ha & _).
  split; [|exact (Ha eq_refl)].
  rewrite (Ht (str " t Action: go Action Input: a Action Input: b") eq_refl
              (or_intror eq_refl)).
  reflexivity.
Defined.

(* ================================================================== *)
(** * The action dispatcher *)
(* ================================================================== *)

(** A search or finish pattern matches only an action that opens with
    the name of the call. *)
Lemma call_re_name (name action : pystr) (m : captures) :
  re_match (call_re false name) action = Some m ->
  exists rest, action = name ++ rest.
Proof.
  unfold re_match, call_re. rewrite rmatch_seq, rmatch_lit.
  destruct (startswith action name) eqn:E; [|discriminate].
  intros _. eexists. now apply startswith_app.
Qed.

Lemma search_nutrition_not_specialist (action action_input : pystr)
    (m : captures) :
  re_match search_nutrition_re action = Some m ->
  specialist_call_of action action_input = None.
Proof.
  intros H. apply call_re_name in H as (rest & ->). reflexivity.
Qed.

Lemma search_research_not_specialist (action action_input : pystr)
    (m : captures) :
  re_match search_research_re action = Some m ->
  specialist_call_of action action_input = None
  /\ re_match search_nutrition_re action = None.
Proof.
  intros H. apply call_re_name in H as (rest & ->). split; reflexivity.
Qed.

Lemma str_or_nonempty (a b : pystr) : b <> [] -> str_or a b <> [].
Proof. intros Hb. unfold str_or. now destruct a. Qed.

Section DispatchFacts.
Context {B : Backends}.

(** What a delegation does once the context is there. *)
Lemma delegate_step (name task context : pystr) (steps : list Step)
    (w w1 : World) (log log1 : list Event) :
  inject_context name task (w, log) = (Ok context, (w1, log1)) ->
  delegate name task steps (w, log) =
  match run_specialist name task context w1 with
  | (Ok (response_text, step_dict), w2) =>
      (Ok (response_text, steps ++ [step_dict]),
       (w2, log1 ++ [EvSpecialist name task context]))
  | (Raise e, w2) =>
      (Ok (str "Error calling " ++ name ++ str ": " ++ e,
           steps ++ [ {| module := name;
                         prompt := PTask task;
                         response := PError e |} ]),
       (w2, log1 ++ [EvSpecialist name task context]))
  end.
Proof.
  intros H. unfold delegate, bind, try_except, call_specialist, ret.
  rewrite H.
  destruct (run_specialist name task context w1) as [[[resp step]|e] w2];
    reflexivity.
Qed.

(** A delegation whose context lookup raises makes no further call. *)
Lemma delegate_lookup_raises (name task e : pystr) (steps : list Step)
    (w w1 : World) (log log1 : list Event) :
  inject_context name task (w, log) = (Raise e, (w1, log1)) ->
  delegate name task steps (w, log) = (Raise e, (w1, log1)).
Proof. intros H. unfold delegate, bind. now rewrite H. Qed.

(** The context injected for each kind of specialist. *)
Lemma inject_context_by_name (name task : pystr) (w : World)
    (log : list Event) :
  (name = str "Nutrition Expert" ->
   inject_context name task (w, log)
   = (fst (get_nutrition_context task w),
      (snd (get_nutrition_context task w), log ++ [EvNutrition task])))
  /\ (name = str "Science Researcher" ->
      inject_context name task (w, log)
      = (fst (get_research_context task w),
         (snd (get_research_context task w), log ++ [EvResearch task])))
  /\ (name <> str "Nutrition Expert" -> name <> str "Science Researcher" ->
      inject_context name task (w, log) = (Ok [], (w, log))).
Proof.
  unfold inject_context, call_nutrition, call_research, ret.
  split; [|split].
  - intros ->. rewrite str_eqb_refl.
    now destruct (get_nutrition_context task w).
  - intros ->.
    change (str_eqb (str "Science Researcher") (str "Nutrition Expert"))
      with false.
    rewrite str_eqb_refl. now destruct (get_research_context task w).
  - intros Hn Hs. apply str_eqb_neq in Hn. apply str_eqb_neq in Hs.
    now rewrite Hn, Hs.
Qed.

Lemma Served_app (w w1 w2 : World) (evs1 evs2 : list Event)
    (r1 r2 : list Step) :
  Served w evs1 r1 w1 -> Served w1 evs2 r2 w2 ->
  Served w (evs1 ++ evs2) (r1 ++ r2) w2.
Proof.
  intros H1 H2. induction H1; cbn [app]; [assumption| | | | |].
  - eapply served_chat; eauto.
  - eapply served_specialist; eauto.
  - eapply served_specialist_error; eauto.
  - eapply served_nutrition; eauto.
  - eapply served_research; eauto.
Qed.

(** One record for each call to the text-generation backend and each
    call to a specialist. *)
Lemma Served_length (w w' : World) (evs : list Event) (records : list Step) :
  Served w evs records w' ->
  List.length records
  = List.length (filter is_chat evs)
    + List.length (filter is_specialist evs).
Proof. intros H. induction H; simpl; lia. Qed.

(** What the context lookup for a specialist can do: return, after at
    most one lookup, or raise what the lookup raised. *)
Lemma inject_context_outcome (name task : pystr) (w : World)
    (log : list Event) :
  exists r w1 evs,
    inject_context name task (w, log) = (r, (w1, log ++ evs))
    /\ filter is_chat evs = [] /\ filter is_specialist evs = []
    /\ List.length evs <= 1
    /\ match r with
       | Ok _ => Served w evs [] w1
       | Raise e => exists ev, evs = [ev] /\ Failed ev w e w1
       end.
Proof.
  unfold inject_context, call_nutrition, call_research, ret.
  destruct (str_eqb name (str "Nutrition Expert")).
  - destruct (get_nutrition_context task w) as [[r|e] w1] eqn:E;
      eexists _, w1, [EvNutrition task]; repeat split; try (simpl; lia).
    + eapply served_nutrition; [exact E | constructor].
    + now exists (EvNutrition task).
  - destruct (str_eqb name (str "Science Researcher")).
    + destruct (get_research_context task w) as [[r|e] w1] eqn:E;
        eexists _, w1, [EvResearch task]; repeat split; try (simpl; lia).
      * eapply served_research; [exact E | constructor].
      * now exists (EvResearch task).
    + exists (Ok []), w, []. rewrite app_nil_r.
      repeat split; try (simpl; lia). constructor.
Qed.

(** What the dispatcher can do. It makes at most two calls, none of them
    to the text-generation backend. When it returns, the trail it was
    given has grown by the records of the calls made. When it raises, it
    made one call, a retrieval lookup, and that lookup raised the
    error. *)
Lemma execute_action_outcome (action action_input : pystr)
    (steps : list Step) (w : World) (log : list Event) :
  exists r w' evs,
    _execute_action action action_input steps (w, log)
    = (r, (w', log ++ evs))
    /\ filter is_chat evs = []
    /\ List.length (filter is_specialist evs) <= 1
    /\ List.length evs <= 2
    /\ match r with
       | Ok (observation, trail) =>
           exists added, trail = steps ++ added /\ Served w evs added w'
       | Raise e => exists ev, evs = [ev] /\ Failed ev w e w'
       end.
Proof.
  assert (Hrest : exists r w' evs,
             lookup_or_finish action action_input steps (w, log)
             = (r, (w', log ++ evs))
             /\ filter is_chat evs = []
             /\ List.length (filter is_specialist evs) <= 1
             /\ List.length evs <= 2
             /\ match r with
                | Ok (observation, trail) =>
                    exists added,
                      trail = steps ++ added /\ Served w evs added w'
                | Raise e => exists ev, evs = [ev] /\ Failed ev w e w'
                end).
  { unfold lookup_or_finish, bind, call_nutrition, call_research, ret.
    destruct (re_match search_nutrition_re action) as [m|].
    - destruct (get_nutrition_context (group 1 m) w) as [[r|e] w'] eqn:E;
        eexists _, w', [EvNutrition (group 1 m)];
        repeat split; try (simpl; lia).
      + exists []. rewrite app_nil_r. split; [reflexivity|].
        eapply served_nutrition; [exact E | constructor].
      + now exists (EvNutrition (group 1 m)).
    - destruct (re_match search_research_re action) as [m|].
      + destruct (get_research_context (group 1 m) w) as [[r|e] w'] eqn:E;
          eexists _, w', [EvResearch (group 1 m)];
          repeat split; try (simpl; lia).
        * exists []. rewrite app_nil_r. split; [reflexivity|].
          eapply served_research; [exact E | constructor].
        * now exists (EvResearch (group 1 m)).
      + destruct (startswith (lower action) (str "finish"));
          eexists _, w, []; rewrite !app_nil_r;
          repeat split; try (simpl; lia);
          exists []; rewrite app_nil_r; split; (reflexivity || constructor). }
  unfold _execute_action.
  destruct (specialist_call_of action action_input) as [[name task]|];
    [|exact Hrest].
  destruct (truthy name && truthy task); [|exact Hrest].
  destruct (inject_context_outcome name task w log)
    as (r & w1 & evs & E & Hchat & Hspec & Hlen & Hr).
  destruct r as [ctx|e].
  - rewrite (delegate_step name task ctx steps w w1 log _ E).
    destruct (run_specialist name task ctx w1) as [[[resp step]|e] w2] eqn:R;
      eexists _, w2, (evs ++ [EvSpecialist name task ctx]);
      rewrite (app_assoc log), !filter_app, Hchat, Hspec;
      repeat split; rewrite ?length_app; try (simpl; lia);
      eexists [_]; (split; [reflexivity|]);
      apply (Served_app w w1 w2 evs [EvSpecialist name task ctx] [] [_] Hr).
    + eapply served_specialist; [exact R | constructor].
    + eapply served_specialist_error; [exact R | constructor].
  - rewrite (delegate_lookup_raises name task e steps w w1 log _ E).
    destruct Hr as (ev & -> & Hf).
    exists (Raise e), w1, [ev].
    split; [reflexivity|]. split; [assumption|].
    split; [rewrite Hspec; simpl; lia|]. split; [simpl; lia|].
    now exists ev.
Qed.

(** Under a scripted text-generation backend, the position after a
    series of served calls counts the calls to that backend. *)
Lemma Served_position (script : nat -> pystr * Raw) (position : World -> nat)
    (w w' : World) (evs : list Event) (records : list Step) :
  scripted_generation script position ->
  Served w evs records w' ->
  position w' = position w + List.length (filter is_chat evs).
Proof.
  intros (Hchat & Hspec & Hnut & Hres) H.
  induction H as [w | w w1 w' messages text raw evs records E _ IH
                  | w w1 w' name task context resp step evs records E _ IH
                  | w w1 w' name task context e evs records E _ IH
                  | w w1 w' query r evs records E _ IH
                  | w w1 w' query r evs records E _ IH]; simpl.
  - lia.
  - destruct (Hchat messages w) as (w2 & E2 & Hp).
    rewrite E in E2. injection E2 as _ ->. lia.
  - specialize (Hspec name task context w). rewrite E in Hspec.
    simpl in Hspec. lia.
  - specialize (Hspec name task context w). rewrite E in Hspec.
    simpl in Hspec. lia.
  - specialize (Hnut query w). rewrite E in Hnut. simpl in Hnut. lia.
  - specialize (Hres query w). rewrite E in Hres. simpl in Hres. lia.
Qed.

(** When no retrieval lookup raises, the dispatcher returns. *)
Lemma execute_action_returns (action action_input : pystr)
    (steps : list Step) (w : World) (log : list Event) :
  lookups_return ->
  exists observation added w' evs,
    _execute_action action action_input steps (w, log)
    = (Ok (observation, steps ++ added), (w', log ++ evs))
    /\ filter is_chat evs = []
    /\ Served w evs added w'.
Proof.
  intros Hlook.
  destruct (execute_action_outcome action action_input steps w log)
    as (r & w' & evs & E & Hchat & _ & _ & Hr).
  destruct r as [[obs trail]|e].
  - destruct Hr as (added & -> & Hs). now exists obs, added, w', evs.
  - exfalso. destruct Hr as (ev & -> & Hf).
    destruct ev as [messages|name task context|query|query];
      simpl in Hchat, Hf; try discriminate; try contradiction.
    + destruct (proj1 (Hlook query w)) as (r & w2 & E2). congruence.
    + destruct (proj2 (Hlook query w)) as (r & w2 & E2). congruence.
Qed.
End DispatchFacts.

(* ================================================================== *)
(** * The call form [name(<argument>)] *)
(* ================================================================== *)

Lemma rmatch_char (cs : cset) (ch : ascii) (s : pystr) (m : captures)
    (k : cont) :
  rmatch (RChar cs) (ch :: s) m k = if cset_mem cs ch then k s m else None.
Proof. reflexivity. Qed.

Lemma rmatch_lit_app (p s : pystr) (m : captures) (k : cont) :
  rmatch (lit false p) (p ++ s) m k = k s m.
Proof.
  rewrite rmatch_lit, startswith_prefix.
  now rewrite skipn_app, skipn_all, Nat.sub_diag.
Qed.

(** A lazy [.*?] passes over every place where the rest of the pattern
    fails. *)
Lemma rep_lazy_skip (a b : pystr) (m : captures) (k : cont) :
  (forall a1 a2, a = a1 ++ a2 -> a2 <> [] -> k (a2 ++ b) m = None) ->
  rep_lazy CAny 0 (a ++ b) m k = rep_lazy CAny 0 b m k.
Proof.
  induction a as [|ch a IH]; intros H; [reflexivity|].
  cbn [app rep_lazy cset_mem pred].
  assert (H0 : k ((ch :: a) ++ b) m = None)
    by (apply (H [] (ch :: a)); [reflexivity | discriminate]).
  cbn [app] in H0. rewrite H0.
  cbn [or_else]. apply IH.
  intros a1 a2 -> Ha2. now apply (H (ch :: a1) a2).
Qed.

(** The end of a call, [\s*\)$], on a closing parenthesis. *)
Lemma closing_match (m : captures) :
  rmatch (RRep true 0 CSpace +++ RChar (CLit ")"%char) +++ RDollar)
         [")"%char] m accept = Some m.
Proof. reflexivity. Qed.

(** The end of a call does not match where text that ends in something
    other than a space is still to come. *)
Lemma closing_fails (a : pystr) (z : ascii) (m : captures) :
  py_isspace z = false ->
  rmatch (RRep true 0 CSpace +++ RChar (CLit ")"%char) +++ RDollar)
         ((a ++ [z]) ++ [")"%char]) m accept = None.
Proof.
  intros Hz. rewrite rmatch_seq, rmatch_spaces. apply rep_greedy_none.
  intros x y E Hx. cbv beta. rewrite rmatch_seq.
  destruct y as [|c y]; [reflexivity|]. rewrite rmatch_char. cbn [cset_mem].
  destruct (Ascii.eqb c ")") eqn:Ec; [|reflexivity].
  apply Ascii.eqb_eq in Ec. subst c.
  destruct y as [|d [|d' y]]; cbn [rmatch]; [| |reflexivity].
  - exfalso. change (x ++ [")"%char]) with (x ++ [")"%char]) in E.
    apply app_inj_tail in E as [E _]. subst x.
    rewrite forallb_app in Hx. apply andb_true_iff in Hx as [_ Hx].
    simpl in Hx. cbn [cset_mem] in Hx. rewrite Hz in Hx. discriminate.
  - destruct (Ascii.eqb d nl) eqn:Ed; [|reflexivity].
    apply Ascii.eqb_eq in Ed. subst d. exfalso.
    change (x ++ [")"%char; nl]) with (x ++ [")"%char] ++ [nl]) in E.
    rewrite app_assoc in E. apply app_inj_tail in E as [_ E].
    discriminate E.
Qed.

(** An action of the call form [name(<argument>)], the argument not
    empty and with no whitespace at its ends, matches the call pattern
    with the argument as its group; under re.IGNORECASE the name may be
    in any letter case. *)
Lemma call_form_match (ci : bool) (name a q : pystr) :
  (if ci then lower a = lower name else a = name) ->
  q <> [] -> trimmed q = true ->
  re_match (call_re ci name) (a ++ "("%char :: q ++ [")"%char])
  = Some [(1, q)].
Proof.
  intros Ha Hq Ht. unfold re_match, call_re. rewrite rmatch_seq.
  assert (Hlit : forall k, rmatch (lit ci name)
                             (a ++ "("%char :: q ++ [")"%char]) [] k
                           = k ("("%char :: q ++ [")"%char]) []).
  { intros k. destruct ci; [now apply rmatch_lit_ci|].
    subst a. apply rmatch_lit_app. }
  rewrite Hlit. clear Hlit.
  rewrite rmatch_seq, rmatch_char. cbn [cset_mem]. rewrite Ascii.eqb_refl.
  rewrite rmatch_seq, rmatch_spaces.
  destruct q as [|ch q]; [contradiction|].
  cbn [trimmed] in Ht. apply andb_true_iff in Ht as [Hch Hlast].
  apply negb_true_iff in Hch. apply negb_true_iff in Hlast.
  apply (@rep_greedy_stop CSpace [] ((ch :: q) ++ [")"%char]));
    [reflexivity | exact Hch |].
  change (rep_lazy CAny 0 (q ++ [")"%char]) []
            (fun s' m' =>
               rmatch (RRep true 0 CSpace +++ RChar (CLit ")"%char)
                       +++ RDollar) s'
                 ((1, firstn (List.length ((ch :: q) ++ [")"%char])
                              - List.length s')
                             ((ch :: q) ++ [")"%char])) :: m') accept)
          = Some [(1, ch :: q)]).
  rewrite rep_lazy_skip.
  - cbn [rep_lazy]. rewrite closing_match. cbn [or_else].
    rewrite length_app. cbn [List.length]. rewrite Nat.add_sub.
    change (S (List.length q)) with (List.length (ch :: q)).
    now rewrite firstn_app, firstn_all, Nat.sub_diag, app_nil_r.
  - intros a1 a2 E Ha2.
    destruct (@exists_last _ a2 Ha2) as (a2' & z & ->).
    apply closing_fails.
    assert (Hz : last (ch :: q) ch = z).
    { rewrite E. change (ch :: a1 ++ a2' ++ [z])
                   with ((ch :: a1) ++ a2' ++ [z]).
      rewrite app_assoc. apply last_last. }
    now rewrite <- Hz.
Qed.

(* ================================================================== *)
(** * Theorems about the dispatcher *)
(* ================================================================== *)

Section DispatchTheorems.
Context {B : Backends}.

(** C4. When the call to a specialist raises, the dispatcher appends
    exactly one synthetic step record (the specialist's name as module,
    the task as prompt, the error text as response) and returns the
    observation [Error calling <name>: <error>]; nothing is raised, and
    the loop goes on to its next turn with that observation. *)
Theorem specialist_failure_is_recorded
    (act act_input name task context e : pystr)
    (steps : list Step) (w w1 w2 : World) (log log1 : list Event) :
  specialist_call_of act act_input = Some (name, task) ->
  truthy name = true -> truthy task = true ->
  inject_context name task (w, log) = (Ok context, (w1, log1)) ->
  run_specialist name task context w1 = (Raise e, w2) ->
  let failure := {| module := name;
                    prompt := PTask task;
                    response := PError e |} in
  let observation := str "Error calling " ++ name ++ str ": " ++ e in
  _execute_action act act_input steps (w, log)
  = (Ok (observation, steps ++ [failure]),
     (w2, log1 ++ [EvSpecialist name task context]))
  /\ forall n prompt scratchpad trail w0 log0 out raw,
       chat_with_raw_response (turn_messages prompt scratchpad) w0
       = (Ok (out, raw), w) ->
       log = log0 ++ [EvChat (turn_messages prompt scratchpad)] ->
       steps = trail ++ [orchestrator_step (turn_messages prompt scratchpad) raw] ->
       finish_response (_parse_react_output out) = None ->
       action (_parse_react_output out) = act ->
       action_input (_parse_react_output out) = act_input ->
       react_loop (S n) prompt scratchpad trail (w0, log0)
       = react_loop n prompt
           (scratchpad ++ scratchpad_entry (_parse_react_output out) observation)
           (steps ++ [failure])
           (w2, log1 ++ [EvSpecialist name task context]).
Proof.
  intros Hcall Hname Htask Hctx Hraise failure observation.
  assert (Hexec : _execute_action act act_input steps (w, log)
                  = (Ok (observation, steps ++ [failure]),
                     (w2, log1 ++ [EvSpecialist name task context]))).
  { unfold _execute_action. rewrite Hcall, Hname, Htask. cbn [andb].
    rewrite (delegate_step name task context steps w w1 log log1 Hctx).
    now rewrite Hraise. }
  split; [exact Hexec|].
  intros n prompt scratchpad trail w0 log0 out raw Hchat -> -> Hfin Ha Hi.
  cbn [react_loop]. unfold bind at 1. unfold call_chat. rewrite Hchat.
  rewrite Hfin, Ha, Hi. unfold bind. rewrite Hexec. reflexivity.
Qed.

(** C5. [call_specialist(nutrition, plan a high-protein breakfast)] is
    dispatched to the Nutrition Expert: once the nutrition lookup for the
    task has returned a context, [run_specialist] is called with the name
    [Nutrition Expert], the task and that context, its response is the
    observation and its step record is the one record appended (the
    synthetic record when it raises). In general a specialist call gives
    [run_specialist] the context that [inject_context] returned: the
    nutrition lookup of the task for the Nutrition Expert, the research
    lookup for the Science Researcher, the empty context, with no lookup,
    for any other specialist. *)
Theorem specialist_call_context :
  (forall (steps : list Step) (w w1 : World) (log : list Event)
          (context : pystr),
      let name := str "Nutrition Expert" in
      let task := str "plan a high-protein breakfast" in
      get_nutrition_context task w = (Ok context, w1) ->
      specialist_call_of
        (str "call_specialist(nutrition, plan a high-protein breakfast)") []
      = Some (name, task)
      /\ _execute_action
           (str "call_specialist(nutrition, plan a high-protein breakfast)")
           [] steps (w, log)
         = match run_specialist name task context w1 with
           | (Ok (response_text, step_dict), w2) =>
               (Ok (response_text, steps ++ [step_dict]),
                (w2, log ++ [EvNutrition task;
                             EvSpecialist name task context]))
           | (Raise e, w2) =>
               (Ok (str "Error calling " ++ name ++ str ": " ++ e,
                    steps ++ [ {| module := name;
                                  prompt := PTask task;
                                  response := PError e |} ]),
                (w2, log ++ [EvNutrition task;
                             EvSpecialist name task context]))
           end)
  /\ (forall (action action_input name task : pystr) (steps : list Step)
             (w : World) (log : list Event),
        specialist_call_of action action_input = Some (name, task) ->
        truthy name = true -> truthy task = true ->
        (forall (context : pystr) (w1 : World) (log1 : list Event),
            inject_context name task (w, log) = (Ok context, (w1, log1)) ->
            _execute_action action action_input steps (w, log)
            = match run_specialist name task context w1 with
              | (Ok (response_text, step_dict), w2) =>
                  (Ok (response_text, steps ++ [step_dict]),
                   (w2, log1 ++ [EvSpecialist name task context]))
              | (Raise e, w2) =>
                  (Ok (str "Error calling " ++ name ++ str ": " ++ e,
                       steps ++ [ {| module := name;
                                     prompt := PTask task;
                                     response := PError e |} ]),
                   (w2, log1 ++ [EvSpecialist name task context]))
              end)
        /\ (name = str "Nutrition Expert" ->
            inject_context name task (w, log)
            = (fst (get_nutrition_context task w),
               (snd (get_nutrition_context task w),
                log ++ [EvNutrition task])))
        /\ (name = str "Science Researcher" ->
            inject_context name task (w, log)
            = (fst (get_research_context task w),
               (snd (get_research_context task w),
                log ++ [EvResearch task])))
        /\ (name <> str "Nutrition Expert" ->
            name <> str "Science Researcher" ->
            inject_context name task (w, log) = (Ok [], (w, log)))).
Proof.
  assert (Hgen : forall (action action_input name task : pystr)
             (steps : list Step) (w : World) (log : list Event),
        specialist_call_of action action_input = Some (name, task) ->
        truthy name = true -> truthy task = true ->
        forall (context : pystr) (w1 : World) (log1 : list Event),
          inject_context name task (w, log) = (Ok context, (w1, log1)) ->
          _execute_action action action_input steps (w, log)
          = delegate name task steps (w, log)).
  { intros action action_input name task steps w log Hcall Hname Htask
           context w1 log1 _.
    unfold _execute_action. now rewrite Hcall, Hname, Htask. }
  split.
  - intros steps w w1 log context name task Hget.
    assert (Hcall : specialist_call_of
              (str "call_specialist(nutrition, plan a high-protein breakfast)")
              []
            = Some (name, task)) by (vm_compute; reflexivity).
    split; [exact Hcall|].
    assert (Hctx : inject_context name task (w, log)
                   = (Ok context, (w1, log ++ [EvNutrition task]))).
    { destruct (inject_context_by_name name task w log) as [Hn _].
      rewrite (Hn eq_refl), Hget. reflexivity. }
    rewrite (Hgen _ _ _ _ steps w log Hcall eq_refl eq_refl _ _ _ Hctx).
    rewrite (delegate_step name task context steps w w1 log _ Hctx).
    destruct (run_specialist name task context w1) as [[[resp step]|e] w2];
      now rewrite <- app_assoc.
  - intros action action_input name task steps w log Hcall Hname Htask.
    split.
    + intros context w1 log1 Hctx.
      rewrite (Hgen _ _ _ _ steps w log Hcall Hname Htask _ _ _ Hctx).
      exact (delegate_step name task context steps w w1 log log1 Hctx).
    + exact (inject_context_by_name name task w log).
Qed.

(** C7. A [search_nutrition(<query>)] or [search_research(<query>)]
    action is answered with the result of the lookup, or with the
    sentence [No nutrition data found.] / [No research data found.] when
    the lookup returns nothing; the observation is never empty. A lookup
    that raises makes the dispatcher raise the same error. *)
Theorem search_observation_never_empty
    (action action_input : pystr) (steps : list Step)
    (w : World) (log : list Event) (m : captures) :
  (re_match search_nutrition_re action = Some m ->
   (forall result w',
       get_nutrition_context (group 1 m) w = (Ok result, w') ->
       _execute_action action action_input steps (w, log)
       = (Ok (str_or result (str "No nutrition data found."), steps),
          (w', log ++ [EvNutrition (group 1 m)]))
       /\ (result = [] ->
           str_or result (str "No nutrition data found.")
           = str "No nutrition data found.")
       /\ str_or result (str "No nutrition data found.") <> [])
   /\ (forall e w',
         get_nutrition_context (group 1 m) w = (Raise e, w') ->
         _execute_action action action_input steps (w, log)
         = (Raise e, (w', log ++ [EvNutrition (group 1 m)]))))
  /\ (re_match search_research_re action = Some m ->
      (forall result w',
          get_research_context (group 1 m) w = (Ok result, w') ->
          _execute_action action action_input steps (w, log)
          = (Ok (str_or result (str "No research data found."), steps),
             (w', log ++ [EvResearch (group 1 m)]))
          /\ (result = [] ->
              str_or result (str "No research data found.")
              = str "No research data found.")
          /\ str_or result (str "No research data found.") <> [])
      /\ (forall e w',
            get_research_context (group 1 m) w = (Raise e, w') ->
            _execute_action action action_input steps (w, log)
            = (Raise e, (w', log ++ [EvResearch (group 1 m)])))).
Proof.
  split; intros Hm.
  - assert (Hexec : _execute_action action action_input steps (w, log)
                    = bind (call_nutrition (group 1 m))
                        (fun result =>
                           ret (str_or result
                                  (str "No nutrition data found."), steps))
                        (w, log)).
    { unfold _execute_action.
      rewrite (search_nutrition_not_specialist _ action_input _ Hm).
      unfold lookup_or_finish. now rewrite Hm. }
    rewrite Hexec. unfold bind, call_nutrition, ret. split.
    + intros r w' E. rewrite E. repeat split.
      * now intros ->.
      * now apply str_or_nonempty.
    + intros e w' E. now rewrite E.
  - assert (Hexec : _execute_action action action_input steps (w, log)
                    = bind (call_research (group 1 m))
                        (fun result =>
                           ret (str_or result
                                  (str "No research data found."), steps))
                        (w, log)).
    { unfold _execute_action.
      destruct (search_research_not_specialist _ action_input _ Hm)
        as [Hs Hn].
      rewrite Hs. unfold lookup_or_finish. now rewrite Hn, Hm. }
    rewrite Hexec. unfold bind, call_research, ret. split.
    + intros r w' E. rewrite E. repeat split.
      * now intros ->.
      * now apply str_or_nonempty.
    + intros e w' E. now rewrite E.
Qed.

(** C8, amended. Called with the action [finish(All done!)], the
    dispatcher returns its action input unchanged as the observation,
    the empty string when the action input is empty, and leaves the
    trail as it is. *)
Theorem dispatch_finish_returns_action_input
    (action_input : pystr) (steps : list Step) (st : State) :
  _execute_action (str "finish(All done!)") action_input steps st
  = (Ok (action_input, steps), st).
Proof.
  unfold _execute_action.
  change (specialist_call_of (str "finish(All done!)") action_input)
    with (@None (pystr * pystr)).
  unfold lookup_or_finish.
  change (re_match search_nutrition_re (str "finish(All done!)"))
    with (@None captures).
  change (re_match search_research_re (str "finish(All done!)"))
    with (@None captures).
  change (startswith (lower (str "finish(All done!)")) (str "finish"))
    with true.
  reflexivity.
Qed.
End DispatchTheorems.

(* ================================================================== *)
(** * Theorems about the loop *)
(* ================================================================== *)

(** The bare word [finish], in any letter case, is not a finish call. *)
Lemma bare_finish_no_call (a : pystr) :
  lower a = str "finish" -> re_match finish_re a = None.
Proof.
  destruct a as [|c1 [|c2 [|c3 [|c4 [|c5 [|c6 [|c7 a]]]]]]]; try discriminate.
  intros [= H1 H2 H3 H4 H5 H6].
  unfold re_match, finish_re, call_re. simpl.
  now rewrite H1, H2, H3, H4, H5, H6.
Qed.

Section LoopTheorems.
Context {B : Backends}.

(** One turn of the loop, once the text-generation backend has
    answered. *)
Lemma react_loop_turn (n : nat) (prompt scratchpad out : pystr)
    (steps : list Step) (raw : Raw) (w w' : World) (log : list Event) :
  let messages := turn_messages prompt scratchpad in
  let steps1 := steps ++ [orchestrator_step messages raw] in
  let parsed := _parse_react_output out in
  chat_with_raw_response messages w = (Ok (out, raw), w') ->
  react_loop (S n) prompt scratchpad steps (w, log) =
  match finish_response parsed with
  | Some final_response =>
      (Ok (final_response, steps1), (w', log ++ [EvChat messages]))
  | None =>
      match _execute_action (action parsed) (action_input parsed) steps1
              (w', log ++ [EvChat messages]) with
      | (Ok (observation, steps2), st) =>
          react_loop n prompt
            (scratchpad ++ scratchpad_entry parsed observation) steps2 st
      | (Raise e, st) => (Raise e, st)
      end
  end.
Proof.
  intros messages steps1 parsed H.
  cbn [react_loop]. unfold bind at 1. unfold call_chat.
  fold messages. rewrite H. fold parsed. fold steps1.
  destruct (finish_response parsed); [reflexivity|].
  unfold bind.
  destruct (_execute_action (action parsed) (action_input parsed) steps1
              (w', log ++ [EvChat messages])) as [[[obs steps2]|e] st];
    reflexivity.
Qed.

Lemma react_loop_without_finish (script : nat -> pystr * Raw)
    (position : World -> nat) (prompt : pystr) :
  scripted_generation script position ->
  lookups_return ->
  forall n scratchpad steps w log,
  (forall k, k < n ->
     finish_response (_parse_react_output (fst (script (position w + k))))
     = None) ->
  exists added w' evs scratchpads final_scratchpad w_last,
    let synthesis := synthesis_messages prompt final_scratchpad in
    let last_record :=
      orchestrator_step synthesis (snd (script (position w + n))) in
    react_loop n prompt scratchpad steps (w, log)
    = (Ok (fst (script (position w + n)), steps ++ added ++ [last_record]),
       (w', log ++ evs ++ [EvChat synthesis]))
    /\ filter is_chat evs
       = map (fun s => EvChat (turn_messages prompt s)) scratchpads
    /\ List.length scratchpads = n
    /\ Served w evs added w_last
    /\ chat_with_raw_response synthesis w_last
       = (Ok (script (position w + n)), w').
Proof.
  intros Hscript Hlook.
  induction n as [|n IH]; intros scratchpad steps w log Hnone.
  - destruct (proj1 Hscript (synthesis_messages prompt scratchpad) w)
      as (w' & Hchat & _).
    exists [], w', [], [], scratchpad, w.
    cbn [react_loop]. unfold _force_finish, bind, call_chat, ret.
    rewrite Hchat, Nat.add_0_r.
    destruct (script (position w)) as [text raw].
    repeat split. constructor.
  - destruct (proj1 Hscript (turn_messages prompt scratchpad) w)
      as (w1 & Hchat & Hpos).
    destruct (script (position w)) as [out raw] eqn:Hout.
    rewrite (react_loop_turn n prompt scratchpad out steps raw w w1 log Hchat).
    assert (Hfin : finish_response (_parse_react_output out) = None).
    { specialize (Hnone 0 ltac:(lia)).
      now rewrite Nat.add_0_r, Hout in Hnone. }
    rewrite Hfin.
    destruct (execute_action_returns
                (action (_parse_react_output out))
                (action_input (_parse_react_output out))
                (steps ++ [orchestrator_step (turn_messages prompt scratchpad) raw])
                w1 (log ++ [EvChat (turn_messages prompt scratchpad)]) Hlook)
      as (obs & added & w2 & evs2 & Hexec & Hnochat & Hserved).
    rewrite Hexec.
    assert (Hpos2 : position w2 = S (position w)).
    { rewrite (Served_position script position w1 w2 evs2 added
                 Hscript Hserved), Hnochat. simpl. lia. }
    destruct (IH (scratchpad ++ scratchpad_entry (_parse_react_output out) obs)
                 ((steps ++ [orchestrator_step (turn_messages prompt scratchpad) raw])
                  ++ added)
                 w2 ((log ++ [EvChat (turn_messages prompt scratchpad)]) ++ evs2))
      as (added' & w' & evs & sps & final & w_last & Hrun
          & Hchats & Hlen & Hserved' & Hlast).
    { intros k Hk. rewrite Hpos2.
      replace (S (position w) + k) with (position w + S k) by lia.
      apply Hnone. lia. }
    replace (position w2 + n) with (position w + S n) in Hrun, Hlast by lia.
    exists ([orchestrator_step (turn_messages prompt scratchpad) raw]
            ++ added ++ added'), w',
      ([EvChat (turn_messages prompt scratchpad)] ++ evs2 ++ evs),
      (scratchpad :: sps), final, w_last.
    cbv zeta in Hrun |- *. rewrite Hrun. repeat split.
    + now rewrite <- !app_assoc.
    + rewrite !filter_app, Hnochat, Hchats. reflexivity.
    + simpl. now rewrite Hlen.
    + eapply served_chat; [exact Hchat|].
      exact (Served_app w1 w2 w_last evs2 evs added added' Hserved Hserved').
    + exact Hlast.
Qed.

(** C1, amended. Under a scripted text-generation backend whose five
    next responses hold no finish action, and when no retrieval lookup
    raises, [run] calls the text-generation backend five times for the
    turns of the loop and once more, last, for the forced synthesis (six
    calls in all), and returns the text of that last call, the sixth
    response of the script, as the final answer. *)
Theorem run_without_finish_forces_synthesis
    (script : nat -> pystr * Raw) (position : World -> nat)
    (prompt : pystr) (w : World) (log : list Event) :
  scripted_generation script position ->
  lookups_return ->
  (forall k, k < MAX_ITERATIONS ->
     finish_response (_parse_react_output (fst (script (position w + k))))
     = None) ->
  exists earlier w' evs scratchpads final_scratchpad w_last,
    let synthesis := synthesis_messages prompt final_scratchpad in
    let last_record :=
      orchestrator_step synthesis (snd (script (position w + 5))) in
    run prompt (w, log)
    = (Ok (fst (script (position w + 5)), earlier ++ [last_record]),
       (w', log ++ evs ++ [EvChat synthesis]))
    /\ filter is_chat evs
       = map (fun s => EvChat (turn_messages prompt s)) scratchpads
    /\ List.length scratchpads = 5
    /\ List.length (filter is_chat (evs ++ [EvChat synthesis])) = 6
    /\ Served w evs earlier w_last
    /\ chat_with_raw_response synthesis w_last
       = (Ok (script (position w + 5)), w').
Proof.
  intros Hscript Hlook Hnone.
  destruct (react_loop_without_finish script position prompt Hscript Hlook
              MAX_ITERATIONS [] [] w log Hnone)
    as (added & w' & evs & sps & final & w_last & Hrun
        & Hchats & Hlen & Hserved & Hlast).
  exists added, w', evs, sps, final, w_last.
  repeat split; try assumption.
  rewrite filter_app, Hchats, length_app, length_map, Hlen. reflexivity.
Qed.

(** C2. In any turn, an action of the call form [finish(<response>)],
    in any letter case, makes the loop return the response at once: the
    trail holds the record of the turn and nothing more, the dispatcher
    is not called and no further turn is made; the bare word [finish]
    returns the action input. A first turn that reads
    [Thought: x / Action: finish(Hello there!) / Action Input:] makes
    [run] return [Hello there!] with a trail of exactly one record. *)
Theorem finish_returns_at_once :
  (forall n prompt scratchpad steps w log out raw w' final_response,
      chat_with_raw_response (turn_messages prompt scratchpad) w
      = (Ok (out, raw), w') ->
      finish_response (_parse_react_output out) = Some final_response ->
      react_loop (S n) prompt scratchpad steps (w, log)
      = (Ok (final_response,
             steps ++ [orchestrator_step (turn_messages prompt scratchpad) raw]),
         (w', log ++ [EvChat (turn_messages prompt scratchpad)])))
  /\ (forall turn m,
        re_match finish_re (action turn) = Some m ->
        finish_response turn = Some (group 1 m))
  /\ (forall turn word arg,
        action turn = word ++ "("%char :: arg ++ [")"%char] ->
        lower word = str "finish" -> arg <> [] -> trimmed arg = true ->
        finish_response turn = Some arg)
  /\ (forall turn,
        lower (action turn) = str "finish" ->
        finish_response turn = Some (action_input turn))
  /\ (forall prompt w log raw w',
        chat_with_raw_response (turn_messages prompt []) w
        = (Ok (hello_text, raw), w') ->
        run prompt (w, log)
        = (Ok (str "Hello there!",
               [orchestrator_step (turn_messages prompt []) raw]),
           (w', log ++ [EvChat (turn_messages prompt [])]))).
Proof.
  assert (Hturn : forall n prompt scratchpad steps w log out raw w' final_response,
      chat_with_raw_response (turn_messages prompt scratchpad) w
      = (Ok (out, raw), w') ->
      finish_response (_parse_react_output out) = Some final_response ->
      react_loop (S n) prompt scratchpad steps (w, log)
      = (Ok (final_response,
             steps ++ [orchestrator_step (turn_messages prompt scratchpad) raw]),
         (w', log ++ [EvChat (turn_messages prompt scratchpad)]))).
  { intros n prompt scratchpad steps w log out raw w' resp Hchat Hfin.
    rewrite (react_loop_turn n prompt scratchpad out steps raw w w' log Hchat).
    now rewrite Hfin. }
  split; [exact Hturn|]. split; [|split; [|split]].
  - intros turn m Hm. unfold finish_response. now rewrite Hm.
  - intros turn word arg Ha Hw Harg Ht. unfold finish_response.
    rewrite Ha. unfold finish_re.
    now rewrite (call_form_match true (str "finish") word arg Hw Harg Ht).
  - intros turn Hl. unfold finish_response.
    rewrite (bare_finish_no_call _ Hl), Hl. reflexivity.
  - intros prompt w log raw w' Hchat. unfold run.
    apply (Hturn 4 prompt [] [] w log _ raw w' (str "Hello there!") Hchat).
    vm_compute. reflexivity.
Qed.

(** C9. A turn whose action is exactly [finish()] does not end the run:
    the finish check does not trigger, the dispatcher returns the action
    input as the observation, and the loop goes on to its next turn. *)
Theorem empty_finish_call_continues
    (n : nat) (prompt scratchpad out : pystr) (steps : list Step)
    (raw : Raw) (w w' : World) (log : list Event) :
  chat_with_raw_response (turn_messages prompt scratchpad) w
  = (Ok (out, raw), w') ->
  action (_parse_react_output out) = str "finish()" ->
  finish_response (_parse_react_output out) = None
  /\ (forall trail st,
        _execute_action (str "finish()")
          (action_input (_parse_react_output out)) trail st
        = (Ok (action_input (_parse_react_output out), trail), st))
  /\ react_loop (S n) prompt scratchpad steps (w, log)
     = react_loop n prompt
         (scratchpad
          ++ scratchpad_entry (_parse_react_output out)
               (action_input (_parse_react_output out)))
         (steps ++ [orchestrator_step (turn_messages prompt scratchpad) raw])
         (w', log ++ [EvChat (turn_messages prompt scratchpad)]).
Proof.
  intros Hchat Hact.
  assert (Hfin : finish_response (_parse_react_output out) = None).
  { unfold finish_response. rewrite Hact. reflexivity. }
  assert (Hexec : forall trail st,
             _execute_action (str "finish()")
               (action_input (_parse_react_output out)) trail st
             = (Ok (action_input (_parse_react_output out), trail), st))
    by reflexivity.
  split; [exact Hfin|]. split; [exact Hexec|].
  rewrite (react_loop_turn n prompt scratchpad out steps raw w w' log Hchat).
  now rewrite Hfin, Hact, Hexec.
Qed.
End LoopTheorems.

(* ================================================================== *)
(** * Runs on the scripted collaborators *)
(* ================================================================== *)

Lemma busy_script_scripted :
  @scripted_generation (scripted busy_script)
    (fun n => (busy_script n, n)) (fun w => w).
Proof.
  split; [|split; [|split]].
  - intros messages w. exists (S w). split; reflexivity.
  - intros name task context w. unfold run_specialist. simpl.
    unfold scripted_specialist.
    now destruct (str_eqb name (str "Wellness Coach")).
  - reflexivity.
  - reflexivity.
Defined.

Lemma scripted_lookups_return (script : nat -> pystr) :
  @lookups_return (scripted script).
Proof.
  intros query w. split.
  - exists [], w. reflexivity.
  - exists (str "PubMed: " ++ query), w. reflexivity.
Defined.

Lemma busy_script_no_finish (n : nat) :
  finish_response (_parse_react_output (busy_script n)) = None.
Proof. destruct n as [|[|[|n]]]; vm_compute; reflexivity. Defined.

Lemma run_without_finish_witness :
  @scripted_generation (scripted busy_script)
    (fun n => (busy_script n, n)) (fun w => w)
  /\ @lookups_return (scripted busy_script)
  /\ (forall k, k < 5 ->
        finish_response (_parse_react_output (busy_script (0 + k))) = None)
  /\ exists trail st,
       @run (scripted busy_script) (str "hi") (0, [])
       = (Ok (busy_script 5, trail), st)
       /\ List.length (filter is_chat (snd st)) = 6.
Proof.
  split; [exact busy_script_scripted|].
  split; [exact (scripted_lookups_return busy_script)|].
  split; [intros k _; exact (busy_script_no_finish (0 + k))|].
  destruct (@run_without_finish_forces_synthesis (scripted busy_script)
              (fun n => (busy_script n, n)) (fun w => w) (str "hi") 0 []
              busy_script_scripted (scripted_lookups_return busy_script)
              (fun k _ => busy_script_no_finish (0 + k)))
    as (earlier & w' & evs & sps & final & w_last & Hrun
        & _ & _ & Hsix & _).
  eexists _, _. split; [exact Hrun|]. exact Hsix.
Defined.

(** C1, as stated, fails: the script never produces a finish action, its
    first turn asks for a nutrition lookup, the index is offline, and the
    run ends there, raising the lookup's error after one call to the
    text-generation backend. *)
Lemma run_aborts_on_failed_lookup :
  (forall n, finish_response (_parse_react_output (busy_script n)) = None)
  /\ @run (offline_index busy_script) (str "hi") (0, [])
     = (Raise (str "index offline"),
        (1, [EvChat (@turn_messages (offline_index busy_script) (str "hi") []);
             EvNutrition (str "banana calories")])).
Proof.
  split; [exact busy_script_no_finish|].
  vm_compute. reflexivity.
Qed.

Lemma finish_returns_at_once_witness :
  @run (scripted hello_script) (str "hi") (0, [])
  = (Ok (str "Hello there!",
         [@orchestrator_step (scripted hello_script)
            (@turn_messages (scripted hello_script) (str "hi") []) 0]),
     (1, [EvChat (@turn_messages (scripted hello_script) (str "hi") [])])).
Proof.
  apply (proj2 (proj2 (proj2 (proj2
           (@finish_returns_at_once (scripted hello_script)))))
           (str "hi") 0 [] 0 1).
  reflexivity.
Defined.

Lemma specialist_failure_witness :
  @_execute_action (scripted busy_script)
    (str "call_specialist(coach, plan my week)") [] [] (1, [])
  = (Ok (str "Error calling Wellness Coach: service unavailable",
         [ {| module := str "Wellness Coach";
              prompt := PTask (str "plan my week");
              response := PError (str "service unavailable") |} ]),
     (1, [EvSpecialist (str "Wellness Coach") (str "plan my week") []])).
Proof.
  refine (proj1 (@specialist_failure_is_recorded (scripted busy_script)
                   (str "call_specialist(coach, plan my week)") []
                   (str "Wellness Coach") (str "plan my week") []
                   (str "service unavailable") [] 1 1 1 [] [] _ _ _ _ _));
    vm_compute; reflexivity.
Defined.

Lemma specialist_call_context_witness :
  @_execute_action (scripted busy_script)
    (str "call_specialist(nutrition, plan a high-protein breakfast)")
    [] [] (0, [])
  = (Ok (str "Advice on plan a high-protein breakfast",
         [ {| module := str "Nutrition Expert";
              prompt := PTask (str "plan a high-protein breakfast");
              response := PRaw 0 |} ]),
     (0, [EvNutrition (str "plan a high-protein breakfast");
          EvSpecialist (str "Nutrition Expert")
            (str "plan a high-protein breakfast") []]))
  /\ specialist_call_of (str "call_specialist(science, sleep studies)") []
     = Some (str "Science Researcher", str "sleep studies")
  /\ @_execute_action (scripted busy_script)
       (str "call_specialist(science, sleep studies)") [] [] (0, [])
     = (Ok (str "Advice on sleep studies",
            [ {| module := str "Science Researcher";
                 prompt := PTask (str "sleep studies");
                 response := PRaw 0 |} ]),
        (0, [EvResearch (str "sleep studies");
             EvSpecialist (str "Science Researcher") (str "sleep studies")
               (str "PubMed: sleep studies")])).
Proof.
  assert (Hcall : specialist_call_of
                    (str "call_specialist(science, sleep studies)") []
                  = Some (str "Science Researcher", str "sleep studies"))
    by (vm_compute; reflexivity).
  split; [|split; [exact Hcall|]].
  - exact (proj2 (proj1 (@specialist_call_context (scripted busy_script))
                    [] 0 0 [] [] eq_refl)).
  - exact (proj1 (proj2 (@specialist_call_context (scripted busy_script))
                    _ _ _ _ [] 0 [] Hcall eq_refl eq_refl)
                 (str "PubMed: sleep studies") 0
                 [EvResearch (str "sleep studies")] eq_refl).
Defined.

Lemma search_observation_witness :
  re_match search_nutrition_re (str "search_nutrition(banana calories)")
  = Some [(1, str "banana calories")]
  /\ @_execute_action (scripted busy_script)
       (str "search_nutrition(banana calories)") [] [] (0, [])
     = (Ok (str "No nutrition data found.", []),
        (0, [EvNutrition (str "banana calories")])).
Proof.
  assert (Hm : re_match search_nutrition_re
                 (str "search_nutrition(banana calories)")
               = Some [(1, str "banana calories")])
    by (vm_compute; reflexivity).
  split; [exact Hm|].
  exact (proj1 (proj1 (proj1 (@search_observation_never_empty
                                (scripted busy_script)
                                (str "search_nutrition(banana calories)")
                                [] [] 0 [] [(1, str "banana calories")]) Hm)
                      [] 0 eq_refl)).
Defined.

(** C8, as stated, fails: with an empty action input the observation is
    the empty string, not [All done!]. *)
Lemma dispatch_finish_not_the_response :
  @_execute_action (scripted busy_script) (str "finish(All done!)") [] []
    (0, [])
  = (Ok ([], []), (0, []))
  /\ str_eqb [] (str "All done!") = false.
Proof. split; reflexivity. Qed.

Lemma empty_finish_call_witness :
  action (_parse_react_output (busy_script 2)) = str "finish()"
  /\ finish_response (_parse_react_output (busy_script 2)) = None
  /\ @react_loop (scripted busy_script) 3 (str "hi") [] [] (2, [])
     = @react_loop (scripted busy_script) 2 (str "hi")
         ([] ++ @scratchpad_entry (_parse_react_output (busy_script 2))
                  (action_input (_parse_react_output (busy_script 2))))
         ([] ++ [@orchestrator_step (scripted busy_script)
                   (@turn_messages (scripted busy_script) (str "hi") []) 2])
         (3, [] ++ [EvChat (@turn_messages (scripted busy_script) (str "hi") [])]).
Proof.
  assert (Hact : action (_parse_react_output (busy_script 2)) = str "finish()")
    by (vm_compute; reflexivity).
  split; [exact Hact|].
  destruct (@empty_finish_call_continues (scripted busy_script) 2 (str "hi") []
              (busy_script 2) [] 2 2 3 [] eq_refl Hact)
    as (Hfin & _ & Hloop).
  split; [exact Hfin | exact Hloop].
Defined.

(* ================================================================== *)
(** * More about strings and the normaliser *)
(* ================================================================== *)

Lemma lstrip_app_blank (s r : pystr) :
  lstrip s = [] -> lstrip (s ++ r) = lstrip r.
Proof.
  induction s as [|c s IH]; simpl; [reflexivity|].
  destruct (py_isspace c); [exact IH | discriminate].
Qed.

Lemma lstrip_app_nonblank (s r : pystr) :
  lstrip s <> [] -> lstrip (s ++ r) = lstrip s ++ r.
Proof.
  induction s as [|c s IH]; simpl; [contradiction|].
  destruct (py_isspace c); [exact IH | reflexivity].
Qed.

(** Whitespace around a text does not change what [strip] returns. *)
Lemma strip_surrounding_spaces (l s r : pystr) :
  forallb py_isspace l = true -> forallb py_isspace r = true ->
  strip (l ++ s ++ r) = strip s.
Proof.
  intros Hl Hr. rewrite strip_leading_spaces by assumption. unfold strip.
  destruct (lstrip s) as [|c t] eqn:E.
  - rewrite lstrip_app_blank by assumption.
    now rewrite lstrip_all_spaces.
  - rewrite lstrip_app_nonblank by (rewrite E; discriminate).
    rewrite E. now apply rstrip_spaces.
Qed.

(** X1. Whitespace around a name never matters to the normaliser,
    whether the name is an alias or not. *)
Theorem normalize_ignores_surrounding_whitespace (l name r : pystr) :
  forallb py_isspace l = true -> forallb py_isspace r = true ->
  _normalize_specialist (l ++ name ++ r) = _normalize_specialist name.
Proof.
  intros Hl Hr. unfold _normalize_specialist.
  now rewrite strip_surrounding_spaces.
Qed.

Lemma normalize_ignores_whitespace_witness :
  _normalize_specialist (str "  Dr. Who " ++ [nl])
  = _normalize_specialist (str "Dr. Who").
Proof.
  apply (normalize_ignores_surrounding_whitespace
           (str "  ") (str "Dr. Who") (str " " ++ [nl]));
    reflexivity.
Defined.

Lemma alias_values_canonical :
  Forall (fun kv => In (snd kv) canonical_names /\ strip (snd kv) = snd kv)
         _SPECIALIST_ALIASES.
Proof. repeat constructor; simpl; tauto. Qed.

(** X2. The normaliser returns one of the three canonical names or the
    stripped input, and what it returns has no whitespace at its ends; a
    blank name becomes the empty string. *)
Theorem normalize_range (name : pystr) :
  (In (_normalize_specialist name) canonical_names
   \/ _normalize_specialist name = strip name)
  /\ strip (_normalize_specialist name) = _normalize_specialist name
  /\ (forallb py_isspace name = true -> _normalize_specialist name = []).
Proof.
  unfold _normalize_specialist.
  destruct (dict_get _SPECIALIST_ALIASES (lower (strip name))) as [v|] eqn:E.
  - apply dict_get_In in E.
    pose proof alias_values_canonical as H. rewrite Forall_forall in H.
    destruct (H _ E) as [Hin Hstrip]. cbn [snd] in Hin, Hstrip.
    repeat split; [now left | exact Hstrip |].
    intros Hblank. rewrite (strip_all_spaces _ Hblank) in E.
    exfalso. revert E. clear. simpl. intuition discriminate.
  - repeat split; [now right | apply strip_idem |].
    intros Hblank. now apply strip_all_spaces.
Qed.

Lemma normalize_range_witness :
  _normalize_specialist (str "  " ++ [nl]) = [].
Proof.
  apply (proj2 (proj2 (normalize_range (str "  " ++ [nl])))).
  reflexivity.
Defined.

(** X3. Every field the parser returns is free of whitespace at both
    ends, whatever the text. *)
Theorem parse_fields_are_stripped (text : pystr) :
  strip (thought (_parse_react_output text)) = thought (_parse_react_output text)
  /\ strip (action (_parse_react_output text))
     = action (_parse_react_output text)
  /\ strip (action_input (_parse_react_output text))
     = action_input (_parse_react_output text).
Proof.
  assert (H : forall r, strip (field r text) = field r text).
  { intros r. unfold field.
    destruct (re_search r text); [apply strip_idem | reflexivity]. }
  cbn [_parse_react_output thought action action_input]. now rewrite !H.
Qed.

(* ================================================================== *)
(** * More about the dispatcher *)
(* ================================================================== *)

Lemma startswith_lower (s p : pystr) :
  startswith s p = true -> startswith (lower s) (lower p) = true.
Proof.
  revert s; induction p as [|x p IH]; intros s; simpl; [reflexivity|].
  destruct s as [|y s]; [discriminate|]. simpl.
  intros H. apply andb_true_iff in H as [Hx H].
  apply Ascii.eqb_eq in Hx. subst. rewrite Ascii.eqb_refl. now apply IH.
Qed.

Lemma startswith_app_l (s p q : pystr) :
  startswith s (p ++ q) = true -> startswith s p = true.
Proof.
  revert s; induction p as [|x p IH]; intros s; simpl; [reflexivity|].
  destruct s as [|y s]; [discriminate|].
  intros H. apply andb_true_iff in H as [Hx H].
  rewrite Hx. now apply IH.
Qed.

(** A call pattern matches only an action that opens with the name and
    the parenthesis. *)
Lemma call_re_open (name action : pystr) (m : captures) :
  re_match (call_re false name) action = Some m ->
  startswith action (name ++ ["("%char]) = true.
Proof.
  unfold re_match, call_re. rewrite rmatch_seq, rmatch_lit.
  destruct (startswith action name) eqn:E; [|discriminate].
  rewrite (startswith_app _ _ E) at 2.
  destruct (skipn (List.length name) action) as [|ch s];
    rewrite rmatch_seq; [discriminate|].
  rewrite rmatch_char. cbn [cset_mem].
  destruct (Ascii.eqb ch "(") eqn:Ec; [|discriminate].
  apply Ascii.eqb_eq in Ec. subst ch. intros _.
  change (name ++ "("%char :: s) with (name ++ ["("%char] ++ s).
  rewrite app_assoc. apply startswith_prefix.
Qed.

Lemma call_specialist_re_open (action : pystr) (m : captures) :
  re_match call_specialist_re action = Some m ->
  startswith action (str "call_specialist(") = true.
Proof.
  unfold re_match, call_specialist_re. rewrite rmatch_seq, rmatch_lit.
  now destruct (startswith action (str "call_specialist(")).
Qed.

(** An action that does not start with [call_specialist], in any letter
    case, is no specialist call. *)
Lemma not_specialist_call (action action_input : pystr) :
  startswith (lower action) (str "call_specialist") = false ->
  specialist_call_of action action_input = None.
Proof.
  intros H. unfold specialist_call_of.
  destruct (re_match call_specialist_re action) as [m|] eqn:E.
  - apply call_specialist_re_open, startswith_lower in E.
    change (lower (str "call_specialist("))
      with (str "call_specialist" ++ str "(") in E.
    apply startswith_app_l in E. congruence.
  - now rewrite H.
Qed.

Section MoreDispatch.
Context {B : Backends}.

(** X4. The dispatcher never calls the text-generation backend; it
    makes at most two calls, at most one of them to a specialist. When it
    returns, the trail it was given has grown by the records of the calls
    it made, one for the specialist call and none for a lookup, and all
    these calls came back, an exception of class [Exception] raised by
    the specialist being caught and recorded. When it raises, it made
    exactly one call, a retrieval lookup, and raises what that lookup
    raised. *)
Theorem dispatcher_raises_only_lookup_errors (action action_input : pystr)
    (steps : list Step) (w : World) (log : list Event) :
  exists r w' evs,
    _execute_action action action_input steps (w, log)
    = (r, (w', log ++ evs))
    /\ filter is_chat evs = []
    /\ List.length (filter is_specialist evs) <= 1
    /\ List.length evs <= 2
    /\ match r with
       | Ok (observation, trail) =>
           exists added,
             trail = steps ++ added
             /\ Served w evs added w'
             /\ List.length added = List.length (filter is_specialist evs)
       | Raise e =>
           exists query,
             (evs = [EvNutrition query]
              /\ get_nutrition_context query w = (Raise e, w'))
             \/ (evs = [EvResearch query]
                 /\ get_research_context query w = (Raise e, w'))
       end.
Proof.
  destruct (execute_action_outcome action action_input steps w log)
    as (r & w' & evs & E & Hchat & Hspec & Hlen & Hr).
  exists r, w', evs. repeat (split; [assumption|]).
  destruct r as [[obs trail]|e].
  - destruct Hr as (added & -> & Hs). exists added.
    split; [reflexivity|]. split; [exact Hs|].
    rewrite (Served_length w w' evs added Hs), Hchat. reflexivity.
  - destruct Hr as (ev & -> & Hf).
    destruct ev as [messages|name task context|query|query];
      simpl in Hchat, Hf; try discriminate; try contradiction;
      exists query; [left|right]; now split.
Qed.

(** X5. An action that is no specialist call, no search call and no
    finish (the empty action of a malformed turn among them) is answered
    with [Unknown action: <action>]; nothing is called and the trail is
    left as it is. *)
Theorem unknown_action_observation (action action_input : pystr)
    (steps : list Step) (st : State) :
  startswith (lower action) (str "call_specialist") = false ->
  startswith action (str "search_nutrition(") = false ->
  startswith action (str "search_research(") = false ->
  startswith (lower action) (str "finish") = false ->
  _execute_action action action_input steps st
  = (Ok (str "Unknown action: " ++ action, steps), st).
Proof.
  intros Hcs Hsn Hsr Hfin. unfold _execute_action.
  rewrite (not_specialist_call _ action_input Hcs).
  unfold lookup_or_finish.
  destruct (re_match search_nutrition_re action) as [m|] eqn:En.
  { apply call_re_open in En.
    change (str "search_nutrition" ++ ["("%char])
      with (str "search_nutrition(") in En. congruence. }
  destruct (re_match search_research_re action) as [m|] eqn:Er.
  { apply call_re_open in Er.
    change (str "search_research" ++ ["("%char])
      with (str "search_research(") in Er. congruence. }
  now rewrite Hfin.
Qed.

(** X6. Every action that starts with [finish], in any letter case, is
    answered by the dispatcher with the action input, unchanged; nothing
    is called and the trail is left as it is. *)
Theorem finish_prefix_returns_action_input (action action_input : pystr)
    (steps : list Step) (st : State) :
  startswith (lower action) (str "finish") = true ->
  _execute_action action action_input steps st
  = (Ok (action_input, steps), st).
Proof.
  intros Hfin.
  destruct action as [|x action]; [discriminate|].
  assert (Hx : lower_char x = "f"%char).
  { cbn [lower map startswith str list_ascii_of_string] in Hfin.
    apply andb_true_iff in Hfin as [Hx _].
    apply Ascii.eqb_eq in Hx. now symmetry. }
  assert (Hnot : forall y p, lower_char y <> lower_char x ->
                   startswith (x :: action) (y :: p) = false).
  { intros y p Hy. cbn [startswith].
    destruct (Ascii.eqb y x) eqn:E; [|reflexivity].
    apply Ascii.eqb_eq in E. subst y. contradiction. }
  unfold _execute_action.
  rewrite not_specialist_call.
  2:{ cbn [lower map startswith str list_ascii_of_string]. rewrite Hx.
      reflexivity. }
  unfold lookup_or_finish.
  destruct (re_match search_nutrition_re (x :: action)) as [m|] eqn:En.
  { apply call_re_open in En. cbn [str list_ascii_of_string app] in En.
    rewrite (Hnot "s"%char) in En by (rewrite Hx; discriminate).
    discriminate. }
  destruct (re_match search_research_re (x :: action)) as [m|] eqn:Er.
  { apply call_re_open in Er. cbn [str list_ascii_of_string app] in Er.
    rewrite (Hnot "s"%char) in Er by (rewrite Hx; discriminate).
    discriminate. }
  now rewrite Hfin.
Qed.
End MoreDispatch.

Lemma unknown_action_witness :
  @_execute_action (scripted busy_script) [] (str "anything") [] (0, [])
  = (Ok (str "Unknown action: ", []), (0, [])).
Proof.
  apply (@unknown_action_observation (scripted busy_script) []
           (str "anything") [] (0, [])); reflexivity.
Defined.

Lemma finish_prefix_witness :
  @_execute_action (scripted busy_script) (str "Finished (nearly)")
    (str "wait") [] (0, [])
  = (Ok (str "wait", []), (0, [])).
Proof.
  apply (@finish_prefix_returns_action_input (scripted busy_script)
           (str "Finished (nearly)") (str "wait") [] (0, [])).
  reflexivity.
Defined.

(* ================================================================== *)
(** * Call forms with whitespace inside the parentheses *)
(* ================================================================== *)

Lemma rep_lazy_here (cs : cset) (s : pystr) (m x : captures) (k : cont) :
  k s m = Some x -> rep_lazy cs 0 s m k = Some x.
Proof. intros H. destruct s; simpl; now rewrite H. Qed.

Lemma trimmed_strip (t : pystr) : trimmed t = true -> strip t = t.
Proof.
  intros H. pose proof (strip_surrounded [] t [] H eq_refl eq_refl) as E.
  now rewrite app_nil_r in E.
Qed.

Lemma trimmed_last (ch : ascii) (q a1 a2 : pystr) (z : ascii) :
  trimmed (ch :: q) = true -> q = a1 ++ a2 ++ [z] -> py_isspace z = false.
Proof.
  intros Ht ->. cbn [trimmed] in Ht. apply andb_true_iff in Ht as [_ Hl].
  apply negb_true_iff in Hl.
  change (ch :: a1 ++ a2 ++ [z]) with ((ch :: a1) ++ a2 ++ [z]) in Hl.
  now rewrite app_assoc, last_last in Hl.
Qed.

(** The end of a call, [\s*\)$], on whitespace and the closing
    parenthesis. *)
Lemma closing_match_padded (r : pystr) (m : captures) :
  forallb py_isspace r = true ->
  rmatch (RRep true 0 CSpace +++ RChar (CLit ")"%char) +++ RDollar)
         (r ++ [")"%char]) m accept = Some m.
Proof.
  intros Hr. rewrite rmatch_seq, rmatch_spaces.
  apply rep_greedy_stop; [exact Hr | reflexivity | reflexivity].
Qed.

Lemma closing_fails_padded (a r : pystr) (z : ascii) (m : captures) :
  py_isspace z = false ->
  rmatch (RRep true 0 CSpace +++ RChar (CLit ")"%char) +++ RDollar)
         ((a ++ [z]) ++ r ++ [")"%char]) m accept = None.
Proof.
  intros Hz. rewrite rmatch_seq, rmatch_spaces. apply rep_greedy_none.
  intros x y E Hx. cbv beta. rewrite rmatch_seq.
  destruct y as [|c y]; [reflexivity|]. rewrite rmatch_char. cbn [cset_mem].
  destruct (Ascii.eqb c ")") eqn:Ec; [|reflexivity].
  apply Ascii.eqb_eq in Ec. subst c.
  destruct y as [|d [|d' y]]; cbn [rmatch]; [| |reflexivity].
  - exfalso. rewrite app_assoc in E.
    apply app_inj_tail in E as [E _].
    assert (Hin : In z x) by (rewrite <- E, !in_app_iff; simpl; tauto).
    rewrite forallb_forall in Hx. apply Hx in Hin. cbn [cset_mem] in Hin.
    congruence.
  - destruct (Ascii.eqb d nl) eqn:Ed; [|reflexivity].
    apply Ascii.eqb_eq in Ed. subst d. exfalso.
    change (x ++ [")"%char; nl]) with (x ++ [")"%char] ++ [nl]) in E.
    rewrite !app_assoc in E. apply app_inj_tail in E as [_ E].
    discriminate E.
Qed.

(** A group [(.+?)] followed by the end of a call captures the argument
    without the whitespace after it. *)
Lemma lazy_group_closing (i : nat) (q r : pystr) (m : captures) :
  q <> [] -> trimmed q = true -> forallb py_isspace r = true ->
  rmatch (RGroup i (RRep false 1 CAny) +++ RRep true 0 CSpace
          +++ RChar (CLit ")"%char) +++ RDollar)
         (q ++ r ++ [")"%char]) m accept
  = Some ((i, q) :: m).
Proof.
  intros Hq Ht Hr. destruct q as [|ch q]; [contradiction|].
  change (rep_lazy CAny 0 (q ++ r ++ [")"%char]) m
            (fun s' m' =>
               rmatch (RRep true 0 CSpace +++ RChar (CLit ")"%char)
                       +++ RDollar) s'
                 ((i, firstn (List.length ((ch :: q) ++ r ++ [")"%char])
                              - List.length s')
                             ((ch :: q) ++ r ++ [")"%char])) :: m') accept)
          = Some ((i, ch :: q) :: m)).
  rewrite rep_lazy_skip.
  - apply rep_lazy_here. rewrite closing_match_padded by assumption.
    rewrite length_app, Nat.add_sub.
    now rewrite firstn_app, firstn_all, Nat.sub_diag, app_nil_r.
  - intros a1 a2 E Ha2.
    destruct (@exists_last _ a2 Ha2) as (a2' & z & ->).
    apply closing_fails_padded. exact (trimmed_last ch q a1 a2' z Ht E).
Qed.

(** An action of the form [name( <argument> )], with whitespace allowed
    on both sides of the argument, matches the call pattern with the bare
    argument as its group. *)
Lemma call_form_padded (ci : bool) (name a l q r : pystr) :
  (if ci then lower a = lower name else a = name) ->
  forallb py_isspace l = true -> forallb py_isspace r = true ->
  q <> [] -> trimmed q = true ->
  re_match (call_re ci name) (a ++ "("%char :: l ++ q ++ r ++ [")"%char])
  = Some [(1, q)].
Proof.
  intros Ha Hl Hr Hq Ht. unfold re_match, call_re. rewrite rmatch_seq.
  assert (Hlit : forall s k, rmatch (lit ci name) (a ++ s) [] k = k s []).
  { intros s k. destruct ci; [now apply rmatch_lit_ci|].
    subst a. apply rmatch_lit_app. }
  rewrite Hlit. clear Hlit.
  rewrite rmatch_seq, rmatch_char. cbn [cset_mem]. rewrite Ascii.eqb_refl.
  rewrite rmatch_seq, rmatch_spaces.
  apply rep_greedy_stop; [exact Hl | |].
  - destruct q as [|ch q]; [contradiction|]. cbn [trimmed] in Ht.
    apply andb_true_iff in Ht as [Hch _]. now apply negb_true_iff in Hch.
  - cbv beta. now apply lazy_group_closing.
Qed.

Lemma split_comma_first (name task : pystr) :
  no_comma name = true ->
  split_comma (name ++ ","%char :: task) = (name, Some task).
Proof.
  induction name as [|c name IH]; simpl; [reflexivity|].
  intros H. apply andb_true_iff in H as [Hc H].
  apply negb_true_iff in Hc. now rewrite Hc, IH.
Qed.

Lemma split_comma_none (s : pystr) :
  no_comma s = true -> split_comma s = (s, None).
Proof.
  induction s as [|c s IH]; simpl; [reflexivity|].
  intros H. apply andb_true_iff in H as [Hc H].
  apply negb_true_iff in Hc. now rewrite Hc, IH.
Qed.

(** [\s*,] does not match where text of the name is still to come. *)
Lemma comma_fails (a rest : pystr) (z : ascii) (m : captures) (r : regex) :
  py_isspace z = false -> no_comma (a ++ [z]) = true ->
  rmatch (RRep true 0 CSpace +++ RChar (CLit ","%char) +++ r)
         ((a ++ [z]) ++ rest) m accept = None.
Proof.
  intros Hz Hc. rewrite rmatch_seq, rmatch_spaces. apply rep_greedy_none.
  intros x y E Hx. cbv beta.
  apply app_eq_app in E as (l' & [[E1 E2]|[E1 E2]]).
  2:{ exfalso. assert (Hin : In z x).
      { rewrite E1, !in_app_iff. simpl. tauto. }
      rewrite forallb_forall in Hx. apply Hx in Hin. cbn [cset_mem] in Hin.
      congruence. }
  - destruct l' as [|c l'].
    + exfalso. rewrite app_nil_r in E1. subst x.
      rewrite forallb_app in Hx. apply andb_true_iff in Hx as [_ Hx].
      simpl in Hx. rewrite Hz in Hx. discriminate.
    + subst y. cbn [app]. rewrite rmatch_seq, rmatch_char. cbn [cset_mem].
      assert (Hin : In c (a ++ [z])).
      { rewrite E1, in_app_iff. right. now left. }
      unfold no_comma in Hc. rewrite forallb_forall in Hc.
      apply Hc, negb_true_iff in Hin. now rewrite Hin.
Qed.

(** The call [call_specialist( <name> , <task> )] is read as the
    normalised name and the task: the name ends at the first comma, the
    task runs to the closing parenthesis, and whitespace around either is
    dropped. *)
Lemma specialist_call_form (l name r1 l2 task r2 action_input : pystr) :
  forallb py_isspace l = true -> forallb py_isspace r1 = true ->
  forallb py_isspace l2 = true -> forallb py_isspace r2 = true ->
  name <> [] -> trimmed name = true -> no_comma name = true ->
  task <> [] -> trimmed task = true ->
  specialist_call_of
    (str "call_specialist(" ++ l ++ name ++ r1 ++ ","%char :: l2 ++ task
     ++ r2 ++ [")"%char]) action_input
  = Some (_normalize_specialist name, task).
Proof.
  intros Hl Hr1 Hl2 Hr2 Hn Htn Hcn Ht Htt.
  assert (Hm : re_match call_specialist_re
                 (str "call_specialist(" ++ l ++ name ++ r1 ++ ","%char :: l2
                  ++ task ++ r2 ++ [")"%char])
               = Some [(2, task); (1, name)]).
  { unfold re_match, call_specialist_re.
    rewrite rmatch_seq, rmatch_lit_app. rewrite rmatch_seq, rmatch_spaces.
    destruct name as [|ch name]; [contradiction|].
    pose proof Htn as Htn'. cbn [trimmed] in Htn'.
    apply andb_true_iff in Htn' as [Hch _]. apply negb_true_iff in Hch.
    apply rep_greedy_stop; [exact Hl | exact Hch |]. cbv beta.
    set (whole := (ch :: name) ++ r1 ++ ","%char :: l2 ++ task ++ r2
                  ++ [")"%char]).
    change (rep_lazy CAny 0 (name ++ r1 ++ ","%char :: l2 ++ task ++ r2
                             ++ [")"%char]) []
              (fun s' m' =>
                 rmatch (RRep true 0 CSpace +++ RChar (CLit ","%char)
                         +++ RRep true 0 CSpace
                         +++ RGroup 2 (RRep false 1 CAny)
                         +++ RRep true 0 CSpace +++ RChar (CLit ")"%char)
                         +++ RDollar) s'
                   ((1, firstn (List.length whole - List.length s') whole)
                    :: m') accept)
            = Some [(2, task); (1, ch :: name)]).
    rewrite rep_lazy_skip.
    - apply rep_lazy_here. rewrite rmatch_seq, rmatch_spaces.
      apply rep_greedy_stop; [exact Hr1 | reflexivity |]. cbv beta.
      rewrite rmatch_seq, rmatch_char. cbn [cset_mem]. rewrite Ascii.eqb_refl.
      rewrite rmatch_seq, rmatch_spaces.
      apply rep_greedy_stop; [exact Hl2 | |].
      + destruct task as [|c task]; [contradiction|]. cbn [trimmed] in Htt.
        apply andb_true_iff in Htt as [Hc _]. now apply negb_true_iff in Hc.
      + cbv beta. rewrite lazy_group_closing by assumption.
        unfold whole. rewrite length_app, Nat.add_sub.
        now rewrite firstn_app, firstn_all, Nat.sub_diag, app_nil_r.
    - intros a1 a2 E Ha2.
      destruct (@exists_last _ a2 Ha2) as (a2' & z & ->).
      apply comma_fails.
      + exact (trimmed_last ch name a1 a2' z Htn E).
      + unfold no_comma in *. rewrite E in Hcn. cbn [forallb] in Hcn.
        apply andb_true_iff in Hcn as [_ Hcn].
        rewrite forallb_app in Hcn. now apply andb_true_iff in Hcn as [_ Hcn]. }
  unfold specialist_call_of. rewrite Hm. cbn [group Nat.eqb].
  now rewrite (trimmed_strip _ Htt).
Qed.

Lemma normalize_truthy (name : pystr) :
  name <> [] -> trimmed name = true ->
  truthy (_normalize_specialist name) = true.
Proof.
  intros Hn Ht. unfold _normalize_specialist. rewrite (trimmed_strip _ Ht).
  destruct (dict_get _SPECIALIST_ALIASES (lower name)) as [v|] eqn:E.
  - apply dict_get_In in E.
    pose proof alias_values_canonical as H. rewrite Forall_forall in H.
    destruct (H _ E) as [Hin _]. cbn [snd] in Hin.
    simpl in Hin. destruct Hin as [<-|[<-|[<-|[]]]]; reflexivity.
  - now destruct name.
Qed.

(** A specialist call is an action that starts with [call_specialist]
    in some letter case. *)
Lemma specialist_call_prefix (action action_input : pystr)
    (call : pystr * pystr) :
  specialist_call_of action action_input = Some call ->
  startswith (lower action) (str "call_specialist") = true.
Proof.
  intros H.
  destruct (startswith (lower action) (str "call_specialist")) eqn:E;
    [reflexivity|].
  rewrite (not_specialist_call _ action_input E) in H. discriminate.
Qed.

(** X7. When the full call pattern does not match and the action starts
    with [call_specialist] in any letter case, the action input is split
    at its first comma into the name, normalised, and the task, stripped;
    with no comma, the whole action input is both the name, normalised,
    and, unchanged, the task. *)
Theorem specialist_call_fallback (action name task action_input : pystr) :
  re_match call_specialist_re action = None ->
  startswith (lower action) (str "call_specialist") = true ->
  (no_comma name = true ->
   specialist_call_of action (name ++ ","%char :: task)
   = Some (_normalize_specialist name, strip task))
  /\ (no_comma action_input = true ->
      specialist_call_of action action_input
      = Some (_normalize_specialist action_input, action_input)).
Proof.
  intros Hm Hs. unfold specialist_call_of. rewrite Hm, Hs. split; intros Hc.
  - now rewrite split_comma_first.
  - now rewrite split_comma_none.
Qed.

Lemma specialist_call_fallback_witness :
  specialist_call_of (str "Call_Specialist")
    (str "coach , sleep better, please")
  = Some (str "Wellness Coach", str "sleep better, please")
  /\ specialist_call_of (str "Call_Specialist") (str " nutrition ")
     = Some (str "Nutrition Expert", str " nutrition ").
Proof.
  destruct (specialist_call_fallback (str "Call_Specialist") (str "coach ")
              (str " sleep better, please") (str " nutrition ")
              eq_refl eq_refl) as [H1 H2].
  split; [exact (H1 eq_refl) | exact (H2 eq_refl)].
Defined.

Section CallForms.
Context {B : Backends}.

(** X8. A search call [search_nutrition( <query> )] or
    [search_research( <query> )], with any whitespace around the query
    inside the parentheses, looks up exactly the query without that
    whitespace, once, and answers with the result or, when it is empty,
    with the sentence that no data was found; when the lookup raises, the
    dispatcher raises the same error. *)
Theorem search_call_looks_up_query (l query r action_input : pystr)
    (steps : list Step) (w : World) (log : list Event) :
  forallb py_isspace l = true -> forallb py_isspace r = true ->
  query <> [] -> trimmed query = true ->
  _execute_action (str "search_nutrition(" ++ l ++ query ++ r ++ str ")")
    action_input steps (w, log)
  = match get_nutrition_context query w with
    | (Ok result, w') =>
        (Ok (str_or result (str "No nutrition data found."), steps),
         (w', log ++ [EvNutrition query]))
    | (Raise e, w') => (Raise e, (w', log ++ [EvNutrition query]))
    end
  /\ _execute_action (str "search_research(" ++ l ++ query ++ r ++ str ")")
       action_input steps (w, log)
     = match get_research_context query w with
       | (Ok result, w') =>
           (Ok (str_or result (str "No research data found."), steps),
            (w', log ++ [EvResearch query]))
       | (Raise e, w') => (Raise e, (w', log ++ [EvResearch query]))
       end.
Proof.
  intros Hl Hr Hq Ht.
  pose proof (call_form_padded false (str "search_nutrition")
                (str "search_nutrition") l query r eq_refl Hl Hr Hq Ht) as Hn.
  pose proof (call_form_padded false (str "search_research")
                (str "search_research") l query r eq_refl Hl Hr Hq Ht) as Hs.
  change (str "search_nutrition" ++ "("%char :: l ++ query ++ r ++ [")"%char])
    with (str "search_nutrition(" ++ l ++ query ++ r ++ str ")") in Hn.
  change (str "search_research" ++ "("%char :: l ++ query ++ r ++ [")"%char])
    with (str "search_research(" ++ l ++ query ++ r ++ str ")") in Hs.
  fold search_nutrition_re in Hn. fold search_research_re in Hs.
  split; unfold _execute_action.
  - rewrite (search_nutrition_not_specialist _ action_input _ Hn).
    unfold lookup_or_finish. rewrite Hn. cbn [group Nat.eqb].
    unfold bind, call_nutrition, ret.
    now destruct (get_nutrition_context query w) as [[result|e] w'].
  - destruct (search_research_not_specialist _ action_input _ Hs) as [H1 H2].
    rewrite H1. unfold lookup_or_finish. rewrite H2, Hs. cbn [group Nat.eqb].
    unfold bind, call_research, ret.
    now destruct (get_research_context query w) as [[result|e] w'].
Qed.

(** X9. A call [call_specialist( <name> , <task> )], with any whitespace
    around the name and the task, is delegated to the normalised name
    with the task: the name is the text before the first comma, and the
    task may itself hold commas and parentheses. *)
Theorem specialist_call_is_delegated
    (l name r1 l2 task r2 action_input : pystr)
    (steps : list Step) (st : State) :
  forallb py_isspace l = true -> forallb py_isspace r1 = true ->
  forallb py_isspace l2 = true -> forallb py_isspace r2 = true ->
  name <> [] -> trimmed name = true -> no_comma name = true ->
  task <> [] -> trimmed task = true ->
  _execute_action
    (str "call_specialist(" ++ l ++ name ++ r1 ++ str "," ++ l2 ++ task
     ++ r2 ++ str ")") action_input steps st
  = delegate (_normalize_specialist name) task steps st.
Proof.
  intros Hl Hr1 Hl2 Hr2 Hn Htn Hcn Ht Htt. unfold _execute_action.
  change (str "call_specialist(" ++ l ++ name ++ r1 ++ str "," ++ l2 ++ task
          ++ r2 ++ str ")")
    with (str "call_specialist(" ++ l ++ name ++ r1 ++ ","%char :: l2 ++ task
          ++ r2 ++ [")"%char]).
  rewrite (specialist_call_form l name r1 l2 task r2 action_input)
    by assumption.
  rewrite (normalize_truthy name Hn Htn).
  now destruct task.
Qed.

(** X10. A specialist call whose name or task comes out empty (the bare
    word [call_specialist] with an empty action input, for one) is not
    delegated: the observation is [Unknown action: <action>], nothing is
    called and the trail is left as it is. *)
Theorem empty_specialist_call_is_unknown
    (action action_input name task : pystr)
    (steps : list Step) (st : State) :
  specialist_call_of action action_input = Some (name, task) ->
  truthy name && truthy task = false ->
  _execute_action action action_input steps st
  = (Ok (str "Unknown action: " ++ action, steps), st).
Proof.
  intros Hcall Hempty. unfold _execute_action. rewrite Hcall, Hempty.
  apply specialist_call_prefix in Hcall.
  destruct action as [|x action]; [discriminate|].
  assert (Hx : lower_char x = "c"%char).
  { cbn [lower map startswith str list_ascii_of_string] in Hcall.
    apply andb_true_iff in Hcall as [Hx _].
    apply Ascii.eqb_eq in Hx. now symmetry. }
  assert (Hnot : forall y p, lower_char y <> lower_char x ->
                   startswith (x :: action) (y :: p) = false).
  { intros y p Hy. cbn [startswith].
    destruct (Ascii.eqb y x) eqn:E; [|reflexivity].
    apply Ascii.eqb_eq in E. subst y. contradiction. }
  unfold lookup_or_finish.
  destruct (re_match search_nutrition_re (x :: action)) as [m|] eqn:En.
  { apply call_re_open in En. cbn [str list_ascii_of_string app] in En.
    rewrite (Hnot "s"%char) in En by (rewrite Hx; discriminate).
    discriminate. }
  destruct (re_match search_research_re (x :: action)) as [m|] eqn:Er.
  { apply call_re_open in Er. cbn [str list_ascii_of_string app] in Er.
    rewrite (Hnot "s"%char) in Er by (rewrite Hx; discriminate).
    discriminate. }
  cbn [lower map startswith str list_ascii_of_string]. rewrite Hx.
  reflexivity.
Qed.
End CallForms.

(** X11. The finish check drops whitespace inside the parentheses: for
    [finish( <response> )] in any letter case the final response is the
    text without the whitespace around it. *)
Theorem finish_response_drops_padding (turn : ReactTurn)
    (word l arg r : pystr) :
  action turn = word ++ str "(" ++ l ++ arg ++ r ++ str ")" ->
  lower word = str "finish" ->
  forallb py_isspace l = true -> forallb py_isspace r = true ->
  arg <> [] -> trimmed arg = true ->
  finish_response turn = Some arg.
Proof.
  intros Ha Hw Hl Hr Harg Ht. unfold finish_response. rewrite Ha.
  change (word ++ str "(" ++ l ++ arg ++ r ++ str ")")
    with (word ++ "("%char :: l ++ arg ++ r ++ [")"%char]).
  unfold finish_re.
  now rewrite (call_form_padded true (str "finish") word l arg r Hw Hl Hr Harg Ht).
Qed.

Lemma finish_response_padding_witness :
  finish_response
    {| thought := []; action := str "FINISH(  All done! " ++ [nl] ++ str ")";
       action_input := [] |}
  = Some (str "All done!").
Proof.
  apply (finish_response_drops_padding
           {| thought := [];
              action := str "FINISH(  All done! " ++ [nl] ++ str ")";
              action_input := [] |}
           (str "FINISH") (str "  ") (str "All done!") (str " " ++ [nl]));
    (reflexivity || discriminate).
Defined.

Lemma search_call_witness :
  @_execute_action (scripted busy_script)
    (str "search_research(  sleep and memory )") [] [] (0, [])
  = (Ok (str "PubMed: sleep and memory", []),
     (0, [EvResearch (str "sleep and memory")])).
Proof.
  apply (proj2 (@search_call_looks_up_query (scripted busy_script)
                  (str "  ") (str "sleep and memory") (str " ") [] [] 0 []
                  eq_refl eq_refl ltac:(discriminate) eq_refl)).
Defined.

Lemma specialist_call_delegated_witness :
  @_execute_action (scripted busy_script)
    (str "call_specialist( science ,  compare (a, b) )") [] [] (0, [])
  = @delegate (scripted busy_script) (str "Science Researcher")
      (str "compare (a, b)") [] (0, []).
Proof.
  apply (@specialist_call_is_delegated (scripted busy_script)
           (str " ") (str "science") (str " ") (str "  ")
           (str "compare (a, b)") (str " ") [] [] (0, []));
    (reflexivity || discriminate).
Defined.

Lemma empty_specialist_call_witness :
  @_execute_action (scripted busy_script) (str "call_specialist") [] []
    (0, [])
  = (Ok (str "Unknown action: call_specialist", []), (0, [])).
Proof.
  apply (@empty_specialist_call_is_unknown (scripted busy_script)
           (str "call_specialist") [] [] [] [] (0, []));
    reflexivity.
Defined.

(* ================================================================== *)
(** * More about the loop *)
(* ================================================================== *)

Section Outcome.
Context {B : Backends}.

(** How the loop with [n] turns left can end, and what it has called by
    then. Its first call is one to the text-generation backend. When it
    returns, its last call is one to that backend too, the turn that
    finishes or the forced synthesis, and the trail has grown by the
    records of the calls made. When it raises, the calls before the last
    came back and the last, a call to the text-generation backend or a
    retrieval lookup, raised the error. *)
Lemma react_loop_outcome (prompt : pystr) :
  forall n scratchpad steps w log,
  exists r w' evs,
    react_loop n prompt scratchpad steps (w, log) = (r, (w', log ++ evs))
    /\ hd_error evs
       = Some (EvChat match n with
                      | 0 => synthesis_messages prompt scratchpad
                      | S _ => turn_messages prompt scratchpad
                      end)
    /\ List.length (filter is_chat evs) <= S n
    /\ List.length (filter is_specialist evs) <= n
    /\ List.length evs <= 3 * n + 1
    /\ match r with
       | Ok (answer, trail) =>
           exists evs0 messages added raw w0,
             evs = evs0 ++ [EvChat messages]
             /\ trail = steps ++ added ++ [orchestrator_step messages raw]
             /\ Served w evs0 added w0
             /\ ((exists sp out,
                     messages = turn_messages prompt sp
                     /\ chat_with_raw_response messages w0
                        = (Ok (out, raw), w')
                     /\ finish_response (_parse_react_output out)
                        = Some answer
                     /\ List.length (filter is_chat evs) <= n)
                 \/ (exists sp,
                        messages = synthesis_messages prompt sp
                        /\ chat_with_raw_response messages w0
                           = (Ok (answer, raw), w')
                        /\ List.length (filter is_chat evs) = S n))
       | Raise e =>
           exists evs0 ev records w0,
             evs = evs0 ++ [ev]
             /\ Served w evs0 records w0
             /\ Failed ev w0 e w'
       end.
Proof.
  induction n as [|n IH]; intros scratchpad steps w log.
  - cbn [react_loop]. unfold _force_finish, bind, call_chat, ret.
    destruct (chat_with_raw_response (synthesis_messages prompt scratchpad) w)
      as [[[out raw]|e] w1] eqn:E.
    + exists (Ok (out, steps ++ [orchestrator_step
                                   (synthesis_messages prompt scratchpad) raw])),
        w1, [EvChat (synthesis_messages prompt scratchpad)].
      split; [reflexivity|]. split; [reflexivity|].
      split; [simpl; lia|]. split; [simpl; lia|]. split; [simpl; lia|].
      exists [], (synthesis_messages prompt scratchpad), [], raw, w.
      split; [reflexivity|]. split; [reflexivity|].
      split; [constructor|].
      right. exists scratchpad. now repeat split.
    + exists (Raise e), w1, [EvChat (synthesis_messages prompt scratchpad)].
      split; [reflexivity|]. split; [reflexivity|].
      split; [simpl; lia|]. split; [simpl; lia|]. split; [simpl; lia|].
      exists [], (EvChat (synthesis_messages prompt scratchpad)), [], w.
      split; [reflexivity|]. split; [constructor | exact E].
  - destruct (chat_with_raw_response (turn_messages prompt scratchpad) w)
      as [[[out raw]|e] w1] eqn:E.
    + rewrite (react_loop_turn n prompt scratchpad out steps raw w w1 log E).
      destruct (finish_response (_parse_react_output out)) as [resp|] eqn:F.
      * exists (Ok (resp, steps ++ [orchestrator_step
                                      (turn_messages prompt scratchpad) raw])),
          w1, [EvChat (turn_messages prompt scratchpad)].
        split; [reflexivity|]. split; [reflexivity|].
        split; [simpl; lia|]. split; [simpl; lia|]. split; [simpl; lia|].
        exists [], (turn_messages prompt scratchpad), [], raw, w.
        split; [reflexivity|]. split; [reflexivity|].
        split; [constructor|].
        left. exists scratchpad, out.
        repeat split; try assumption. simpl; lia.
      * destruct (execute_action_outcome
                    (action (_parse_react_output out))
                    (action_input (_parse_react_output out))
                    (steps ++ [orchestrator_step
                                 (turn_messages prompt scratchpad) raw])
                    w1 (log ++ [EvChat (turn_messages prompt scratchpad)]))
          as (r2 & w2 & evs2 & Hexec & Hnochat & Hone & Htwo & Hr2).
        rewrite Hexec.
        assert (Hturn : Served w [EvChat (turn_messages prompt scratchpad)]
                          [orchestrator_step (turn_messages prompt scratchpad)
                             raw] w1).
        { eapply served_chat; [exact E | constructor]. }
        destruct r2 as [[obs steps2]|e].
        -- destruct Hr2 as (added & -> & Hserved).
           destruct (IH (scratchpad
                         ++ scratchpad_entry (_parse_react_output out) obs)
                        ((steps ++ [orchestrator_step
                                      (turn_messages prompt scratchpad) raw])
                         ++ added)
                        w2 ((log ++ [EvChat (turn_messages prompt scratchpad)])
                            ++ evs2))
             as (r & w' & evs3 & Hrun & _ & Hc & Hs & Hl & Hr).
           exists r, w',
             ([EvChat (turn_messages prompt scratchpad)] ++ evs2 ++ evs3).
           rewrite Hrun.
           assert (Hchats :
                     List.length
                       (filter is_chat
                          ([EvChat (turn_messages prompt scratchpad)] ++ evs2
                           ++ evs3))
                     = S (List.length (filter is_chat evs3))).
           { rewrite !filter_app, Hnochat. reflexivity. }
           assert (Hspecs :
                     List.length
                       (filter is_specialist
                          ([EvChat (turn_messages prompt scratchpad)] ++ evs2
                           ++ evs3))
                     = List.length (filter is_specialist evs2)
                       + List.length (filter is_specialist evs3)).
           { rewrite !filter_app, !length_app. reflexivity. }
           rewrite Hchats, Hspecs.
           split; [now rewrite <- !app_assoc|].
           split; [reflexivity|].
           split; [lia|]. split; [lia|].
           split; [rewrite !length_app; simpl; lia|].
           pose proof (Served_app w w1 w2 _ evs2 _ added Hturn Hserved)
             as Hprefix.
           destruct r as [[answer trail]|e].
           ++ destruct Hr as (evs0 & msgs & added3 & raw3 & w0 & -> & Htrail
                              & Hserved3 & Hend).
              exists (([EvChat (turn_messages prompt scratchpad)] ++ evs2)
                      ++ evs0), msgs,
                (([orchestrator_step (turn_messages prompt scratchpad) raw]
                  ++ added) ++ added3), raw3, w0.
              split; [now rewrite <- !app_assoc|].
              split; [rewrite Htrail; now rewrite <- !app_assoc|].
              split; [exact (Served_app w w2 w0 _ evs0 _ added3
                               Hprefix Hserved3)|].
              destruct Hend as [(sp & out' & H1 & H2 & H3 & H4)
                               |(sp & H1 & H2 & H3)].
              ** left. exists sp, out'. repeat split; try assumption. lia.
              ** right. exists sp. repeat split; try assumption. lia.
           ++ destruct Hr as (evs0 & ev & records & w0 & -> & Hserved3 & Hf).
              exists (([EvChat (turn_messages prompt scratchpad)] ++ evs2)
                      ++ evs0), ev,
                (([orchestrator_step (turn_messages prompt scratchpad) raw]
                  ++ added) ++ records), w0.
              split; [now rewrite <- !app_assoc|].
              split; [|exact Hf].
              exact (Served_app w w2 w0 _ evs0 _ records Hprefix Hserved3).
        -- destruct Hr2 as (ev & -> & Hf).
           exists (Raise e), w2, ([EvChat (turn_messages prompt scratchpad)]
                                  ++ [ev]).
           split; [now rewrite <- app_assoc|].
           split; [reflexivity|].
           rewrite !filter_app, Hnochat, !length_app.
           split; [simpl; lia|]. split; [simpl in *; lia|].
           split; [simpl; lia|].
           exists [EvChat (turn_messages prompt scratchpad)], ev,
             [orchestrator_step (turn_messages prompt scratchpad) raw], w1.
           split; [reflexivity|]. split; [exact Hturn | exact Hf].
    + cbn [react_loop]. unfold bind at 1. unfold call_chat. rewrite E.
      exists (Raise e), w1, [EvChat (turn_messages prompt scratchpad)].
      split; [reflexivity|]. split; [reflexivity|].
      split; [simpl; lia|]. split; [simpl; lia|]. split; [simpl; lia|].
      exists [], (EvChat (turn_messages prompt scratchpad)), [], w.
      split; [reflexivity|]. split; [constructor | exact E].
Qed.

(** X12. Whatever the backends return or raise, [run] starts with the
    call to the text-generation backend of its first turn, makes between
    one and six calls to that backend, at most five calls to specialists
    and at most sixteen calls in all, and only adds to the log of
    calls. *)
Theorem run_call_budget (prompt : pystr) (w : World) (log : list Event) :
  exists r w' later,
    let evs := EvChat (turn_messages prompt []) :: later in
    run prompt (w, log) = (r, (w', log ++ evs))
    /\ 1 <= List.length (filter is_chat evs) <= 6
    /\ List.length (filter is_specialist evs) <= 5
    /\ List.length evs <= 16.
Proof.
  destruct (react_loop_outcome prompt MAX_ITERATIONS [] [] w log)
    as (r & w' & evs & Hrun & Hfirst & Hc & Hs & Hl & _).
  destruct evs as [|ev later]; [discriminate|].
  injection Hfirst as ->.
  exists r, w', later. unfold run. cbv zeta. rewrite Hrun.
  repeat split; try assumption. simpl. lia.
Qed.

(** X13. When [run] returns, the trail is the account of the calls that
    were made, in their order: the orchestrator's record, with the
    messages sent and the raw response received, for each call to the
    text-generation backend, the specialist's record or the record of its
    failure for each call to a specialist, and nothing for a lookup. It
    holds between one and eleven records, and the last is the
    orchestrator's record of the last call made, one to the
    text-generation backend, with the raw response that call returned. *)
Theorem run_trail_accounts_for_calls (prompt answer : pystr)
    (trail : list Step) (w w' : World) (log log' : list Event) :
  run prompt (w, log) = (Ok (answer, trail), (w', log')) ->
  exists evs0 messages text raw w0 earlier,
    log' = log ++ evs0 ++ [EvChat messages]
    /\ Served w (evs0 ++ [EvChat messages]) trail w'
    /\ trail = earlier ++ [orchestrator_step messages raw]
    /\ Served w evs0 earlier w0
    /\ chat_with_raw_response messages w0 = (Ok (text, raw), w')
    /\ List.length trail
       = List.length (filter is_chat (evs0 ++ [EvChat messages]))
         + List.length (filter is_specialist (evs0 ++ [EvChat messages]))
    /\ 1 <= List.length trail <= 11.
Proof.
  intros H.
  destruct (react_loop_outcome prompt MAX_ITERATIONS [] [] w log)
    as (r & w1 & evs & Hrun & _ & Hc & Hs & _ & Hr).
  unfold run in H. rewrite Hrun in H.
  injection H as -> -> <-.
  destruct Hr as (evs0 & msgs & added & raw & w0 & -> & Htrail & Hserved
                  & Hend).
  cbn [app] in Htrail. subst trail.
  assert (Hchat : exists text,
             chat_with_raw_response msgs w0 = (Ok (text, raw), w')).
  { destruct Hend as [(sp & out & _ & Hchat & _)|(sp & _ & Hchat & _)];
      eauto. }
  destruct Hchat as (text & Hchat).
  assert (Hall : Served w (evs0 ++ [EvChat msgs])
                   (added ++ [orchestrator_step msgs raw]) w').
  { apply (Served_app w w0 w' evs0 [EvChat msgs] added
             [orchestrator_step msgs raw] Hserved).
    eapply served_chat; [exact Hchat | constructor]. }
  exists evs0, msgs, text, raw, w0, added.
  split; [reflexivity|]. split; [exact Hall|]. split; [reflexivity|].
  split; [exact Hserved|]. split; [exact Hchat|].
  pose proof (Served_length _ _ _ _ Hall) as Hlen.
  split; [exact Hlen|].
  assert (Hlast : 1 <= List.length (filter is_chat (evs0 ++ [EvChat msgs])))
    by (rewrite filter_app, length_app; simpl; lia).
  rewrite Hlen. unfold MAX_ITERATIONS in *. lia.
Qed.

(** X14. [run] raises only what a call to the text-generation backend or
    a retrieval lookup raised: the calls before came back, that call is
    the last one made, and its error is the one [run] raises; an
    exception of class [Exception] raised by a specialist is never raised
    by [run]. A turn in which the text-generation backend raises ends the
    run with the same error. *)
Theorem run_raises_only_backend_errors :
  (forall prompt e w w' log log',
      run prompt (w, log) = (Raise e, (w', log')) ->
      exists evs0 ev records w0,
        log' = log ++ evs0 ++ [ev]
        /\ Served w evs0 records w0
        /\ Failed ev w0 e w'
        /\ is_specialist ev = false)
  /\ (forall n prompt scratchpad steps e w w' log,
        chat_with_raw_response (turn_messages prompt scratchpad) w
        = (Raise e, w') ->
        react_loop (S n) prompt scratchpad steps (w, log)
        = (Raise e, (w', log ++ [EvChat (turn_messages prompt scratchpad)]))).
Proof.
  split.
  - intros prompt e w w' log log' H.
    destruct (react_loop_outcome prompt MAX_ITERATIONS [] [] w log)
      as (r & w1 & evs & Hrun & _ & _ & _ & _ & Hr).
    unfold run in H. rewrite Hrun in H.
    injection H as -> -> <-.
    destruct Hr as (evs0 & ev & records & w0 & -> & Hserved & Hf).
    exists evs0, ev, records, w0.
    split; [reflexivity|]. split; [exact Hserved|]. split; [exact Hf|].
    destruct ev; [reflexivity | contradiction | reflexivity | reflexivity].
  - intros n prompt scratchpad steps e w w' log H.
    cbn [react_loop]. unfold bind at 1. unfold call_chat. now rewrite H.
Qed.

(** X15. A run that returns ends in exactly one of two ways: a turn, one
    of at most five, whose finish check gave the answer, or, after five
    turns and as the sixth call to the text-generation backend, the forced
    synthesis, whose text is the answer. *)
Theorem run_ends_by_finish_or_synthesis (prompt answer : pystr)
    (trail : list Step) (w w' : World) (log log' : list Event) :
  run prompt (w, log) = (Ok (answer, trail), (w', log')) ->
  exists evs0 messages raw w0,
    log' = log ++ evs0 ++ [EvChat messages]
    /\ ((exists scratchpad out,
            messages = turn_messages prompt scratchpad
            /\ chat_with_raw_response messages w0 = (Ok (out, raw), w')
            /\ finish_response (_parse_react_output out) = Some answer
            /\ List.length (filter is_chat (evs0 ++ [EvChat messages])) <= 5)
        \/ (exists scratchpad,
               messages = synthesis_messages prompt scratchpad
               /\ chat_with_raw_response messages w0 = (Ok (answer, raw), w')
               /\ List.length (filter is_chat (evs0 ++ [EvChat messages]))
                  = 6)).
Proof.
  intros H.
  destruct (react_loop_outcome prompt MAX_ITERATIONS [] [] w log)
    as (r & w1 & evs & Hrun & _ & _ & _ & _ & Hr).
  unfold run in H. rewrite Hrun in H.
  injection H as -> -> <-.
  destruct Hr as (evs0 & msgs & added & raw & w0 & -> & _ & _ & Hend).
  exists evs0, msgs, raw, w0. split; [reflexivity|]. exact Hend.
Qed.
End Outcome.

Lemma run_trail_witness :
  exists answer trail w' log',
    @run (scripted busy_script) (str "hi") (0, [])
    = (Ok (answer, trail), (w', log'))
    /\ exists evs0 messages text raw w0 earlier,
         log' = [] ++ evs0 ++ [EvChat messages]
         /\ @Served (scripted busy_script) 0 (evs0 ++ [EvChat messages])
              trail w'
         /\ trail = earlier
                    ++ [@orchestrator_step (scripted busy_script) messages raw]
         /\ @Served (scripted busy_script) 0 evs0 earlier w0
         /\ @chat_with_raw_response (scripted busy_script) messages w0
            = (Ok (text, raw), w')
         /\ List.length trail
            = List.length (filter is_chat (evs0 ++ [EvChat messages]))
              + List.length
                  (filter is_specialist (evs0 ++ [EvChat messages]))
         /\ 1 <= List.length trail <= 11.
Proof.
  destruct (@run (scripted busy_script) (str "hi") (0, []))
    as [[[answer trail]|e] [w' log']] eqn:E.
  - exists answer, trail, w', log'. split; [reflexivity|].
    exact (@run_trail_accounts_for_calls (scripted busy_script)
             (str "hi") answer trail 0 w' [] log' E).
  - vm_compute in E. discriminate E.
Defined.

Lemma run_raises_witness :
  @run (offline_index busy_script) (str "hi") (0, [])
  = (Raise (str "index offline"),
     (1, [EvChat (@turn_messages (offline_index busy_script) (str "hi") []);
          EvNutrition (str "banana calories")]))
  /\ exists evs0 ev records w0,
       [EvChat (@turn_messages (offline_index busy_script) (str "hi") []);
        EvNutrition (str "banana calories")]
       = [] ++ evs0 ++ [ev]
       /\ @Served (offline_index busy_script) 0 evs0 records w0
       /\ @Failed (offline_index busy_script) ev w0 (str "index offline") 1
       /\ is_specialist ev = false.
Proof.
  assert (E : @run (offline_index busy_script) (str "hi") (0, [])
              = (Raise (str "index offline"),
                 (1, [EvChat (@turn_messages (offline_index busy_script)
                                (str "hi") []);
                      EvNutrition (str "banana calories")])))
    by (vm_compute; reflexivity).
  split; [exact E|].
  exact (proj1 (@run_raises_only_backend_errors (offline_index busy_script))
           (str "hi") (str "index offline") 0 1 [] _ E).
Defined.

Lemma run_ends_witness :
  exists answer trail w' log',
    @run (scripted hello_script) (str "hi") (0, [])
    = (Ok (answer, trail), (w', log'))
    /\ exists evs0 messages raw w0,
         log' = [] ++ evs0 ++ [EvChat messages]
         /\ ((exists scratchpad out,
                 messages = @turn_messages (scripted hello_script)
                              (str "hi") scratchpad
                 /\ @chat_with_raw_response (scripted hello_script) messages w0
                    = (Ok (out, raw), w')
                 /\ finish_response (_parse_react_output out) = Some answer
                 /\ List.length (filter is_chat (evs0 ++ [EvChat messages]))
                    <= 5)
             \/ (exists scratchpad,
                    messages = @synthesis_messages (str "hi") scratchpad
                    /\ @chat_with_raw_response (scripted hello_script)
                         messages w0
                       = (Ok (answer, raw), w')
                    /\ List.length (filter is_chat (evs0 ++ [EvChat messages]))
                       = 6)).
Proof.
  destruct (@run (scripted hello_script) (str "hi") (0, []))
    as [[[answer trail]|e] [w' log']] eqn:E.
  - exists answer, trail, w', log'. split; [reflexivity|].
    exact (@run_ends_by_finish_or_synthesis (scripted hello_script)
             (str "hi") answer trail 0 w' [] log' E).
  - vm_compute in E. discriminate E.
Defined.

(* ================================================================== *)
(** * The parser on a well-formed turn *)
(* ================================================================== *)

Lemma contains_startswith (s sub : pystr) :
  contains s sub = false -> startswith s sub = false.
Proof.
  destruct s; simpl; intros H; apply orb_false_iff in H; tauto.
Qed.

Lemma contains_suffix (a s sub : pystr) :
  contains (a ++ s) sub = false -> contains s sub = false.
Proof.
  induction a as [|x a IH]; [trivial|].
  cbn [app contains]. intros H. apply orb_false_iff in H as [_ H]. auto.
Qed.

(** A text that has no occurrence of a marker has none of the marker
    with a character in front of it. *)
Lemma contains_longer (s sub : pystr) (c : ascii) :
  contains s sub = false -> contains s (c :: sub) = false.
Proof.
  induction s as [|x s IH]; [reflexivity|].
  cbn [contains]. intros H. apply orb_false_iff in H as [_ H].
  rewrite (IH H), orb_false_r. cbn [startswith].
  now rewrite (contains_startswith _ _ H), andb_false_r.
Qed.

(** A marker that does not start a text does not start the text with
    more behind it, when what comes next is a character the marker does
    not have. *)
Lemma startswith_extend (c : ascii) (sub : pystr) :
  forallb (fun d => negb (Ascii.eqb d c)) sub = true ->
  forall p s, startswith p sub = false ->
  startswith (p ++ c :: s) sub = false.
Proof.
  induction sub as [|m sub IH]; intros Hc p s H; [discriminate|].
  cbn [forallb] in Hc. apply andb_true_iff in Hc as [Hm Hc].
  apply negb_true_iff in Hm.
  destruct p as [|y p]; cbn [app startswith] in *.
  - now rewrite Hm.
  - destruct (Ascii.eqb m y); [|reflexivity]. cbn [andb] in *. now apply IH.
Qed.

Lemma startswith_straddle (c m0 : ascii) (sub p s : pystr) :
  forallb (fun d => negb (Ascii.eqb d c)) sub = true ->
  p <> [] -> startswith p (m0 :: sub) = false ->
  startswith (p ++ c :: s) (m0 :: sub) = false.
Proof.
  intros Hc Hp H. destruct p as [|y p]; [contradiction|].
  cbn [app startswith] in *.
  destruct (Ascii.eqb m0 y); [|reflexivity]. cbn [andb] in *.
  now apply startswith_extend.
Qed.

(** The first occurrence of a marker is not in a text that has none,
    when that text is followed by a character the rest of the marker
    does not have. *)
Lemma find_after_skip (c m0 : ascii) (sub p s : pystr) :
  forallb (fun d => negb (Ascii.eqb d c)) sub = true ->
  contains p (m0 :: sub) = false ->
  find_after (m0 :: sub) (p ++ c :: s) = find_after (m0 :: sub) (c :: s).
Proof.
  intros Hc. induction p as [|y p IH]; intros H; [reflexivity|].
  cbn [contains] in H. apply orb_false_iff in H as [H1 H2].
  change ((y :: p) ++ c :: s) with (y :: p ++ c :: s) at 1.
  cbn [find_after].
  change (y :: p ++ c :: s) with ((y :: p) ++ c :: s).
  rewrite (startswith_straddle c m0 sub (y :: p) s Hc) by
    (discriminate || assumption).
  now apply IH.
Qed.

Lemma cut_at_skip (c m0 : ascii) (sub p s : pystr) :
  forallb (fun d => negb (Ascii.eqb d c)) sub = true ->
  contains p (m0 :: sub) = false ->
  cut_at (m0 :: sub) (p ++ c :: s) = p ++ cut_at (m0 :: sub) (c :: s).
Proof.
  intros Hc. induction p as [|y p IH]; intros H; [reflexivity|].
  cbn [contains] in H. apply orb_false_iff in H as [H1 H2].
  change ((y :: p) ++ c :: s) with (y :: p ++ c :: s) at 1.
  cbn [cut_at].
  change (y :: p ++ c :: s) with ((y :: p) ++ c :: s).
  rewrite (startswith_straddle c m0 sub (y :: p) s Hc) by
    (discriminate || assumption).
  cbn [app]. f_equal. now apply IH.
Qed.

Lemma strip_nonblank (t : pystr) : strip t <> [] -> lstrip t <> [].
Proof. intros H E. apply H. unfold strip. now rewrite E. Qed.

(** A field that is not blank and has no marker in it, followed by a
    marker line, is cut out whole. *)
Lemma field_cut (mk t rest : pystr) :
  forallb (fun d => negb (Ascii.eqb d nl)) mk = true ->
  strip t <> [] -> contains t mk = false ->
  strip (cut_at (nl :: mk) (lstrip (" "%char :: t ++ nl :: mk ++ rest)))
  = strip t.
Proof.
  intros Hmk Ht Hc.
  change (lstrip (" "%char :: t ++ nl :: mk ++ rest))
    with (lstrip (t ++ nl :: mk ++ rest)).
  rewrite lstrip_app_nonblank by now apply strip_nonblank.
  rewrite cut_at_skip; [|exact Hmk|].
  - replace (cut_at (nl :: mk) (nl :: mk ++ rest)) with (@nil ascii).
    + now rewrite app_nil_r, strip_lstrip.
    + cbn [cut_at]. change (nl :: mk ++ rest) with ((nl :: mk) ++ rest).
      now rewrite startswith_prefix.
  - apply contains_longer.
    destruct (lstrip_split t) as (ws & E & _).
    rewrite E in Hc. exact (contains_suffix _ _ _ Hc).
Qed.

(** X16. A turn written in the prescribed form,
    [Thought: t / Action: a / Action Input: i] on three lines, parses
    back into its three fields, stripped, when thought and action are not
    blank, the thought holds neither [Action:] nor [Action Input:] and
    the action does not hold [Action Input:]; the action input may be
    anything, the empty text included. *)
Theorem parse_turn_text (t a i : pystr) :
  strip t <> [] -> strip a <> [] ->
  contains t (str "Action:") = false ->
  contains t (str "Action Input:") = false ->
  contains a (str "Action Input:") = false ->
  _parse_react_output (turn_text t a i)
  = {| thought := strip t; action := strip a; action_input := strip i |}.
Proof.
  intros Ht Ha Ht1 Ht2 Ha2.
  assert (E : forall p, _parse_react_output (turn_text t a i) = p <->
              thought (_parse_react_output (turn_text t a i)) = thought p
              /\ action (_parse_react_output (turn_text t a i)) = action p
              /\ action_input (_parse_react_output (turn_text t a i))
                 = action_input p).
  { intros [x y z]. destruct (_parse_react_output (turn_text t a i)).
    simpl. split; [intros [= -> -> ->]; auto | intros (-> & -> & ->); auto]. }
  apply E. cbn [thought action action_input]. clear E.
  rewrite thought_by_marker, action_by_marker, action_input_by_marker.
  repeat split.
  - change (find_after (str "Thought:") (turn_text t a i))
      with (Some (" "%char :: t ++ nl :: str "Action:"
                  ++ (" "%char :: a ++ [nl] ++ str "Action Input: " ++ i))).
    exact (field_cut (str "Action:") t
             (" "%char :: a ++ [nl] ++ str "Action Input: " ++ i)
             eq_refl Ht Ht1).
  - assert (Hfa : find_after (str "Action:") (turn_text t a i)
                  = Some (" "%char :: a ++ nl :: str "Action Input:"
                          ++ (" "%char :: i))).
    { transitivity
        (find_after (str "Action:")
           (nl :: str "Action: " ++ a ++ [nl] ++ str "Action Input: " ++ i));
        [|reflexivity].
      exact (find_after_skip nl "A" (str "ction:") t
               (str "Action: " ++ a ++ [nl] ++ str "Action Input: " ++ i)
               eq_refl Ht1). }
    rewrite Hfa.
    exact (field_cut (str "Action Input:") a (" "%char :: i) eq_refl Ha Ha2).
  - assert (Hfa : find_after (str "Action Input:") (turn_text t a i)
                  = Some (" "%char :: i)).
    { transitivity
        (find_after (str "Action Input:")
           (nl :: str "Action: " ++ a ++ [nl] ++ str "Action Input: " ++ i)).
      { exact (find_after_skip nl "A" (str "ction Input:") t
                 (str "Action: " ++ a ++ [nl] ++ str "Action Input: " ++ i)
                 eq_refl Ht2). }
      transitivity
        (find_after (str "Action Input:") (nl :: str "Action Input: " ++ i));
        [|reflexivity].
      exact (find_after_skip nl "A" (str "ction Input:") a
               (str "Action Input: " ++ i) eq_refl Ha2). }
    rewrite Hfa.
    exact (strip_leading_spaces [" "%char] i eq_refl).
Qed.

Lemma parse_turn_text_witness :
  _parse_react_output
    (turn_text (str " Ask the coach: stress") (str "call_specialist(coach, relax)")
       [])
  = {| thought := str "Ask the coach: stress";
       action := str "call_specialist(coach, relax)";
       action_input := [] |}.
Proof.
  apply (parse_turn_text (str " Ask the coach: stress")
           (str "call_specialist(coach, relax)") []);
    (reflexivity || discriminate).
Defined.

Lemma startswith_app_r (p q sub : pystr) :
  startswith p sub = true -> startswith (p ++ q) sub = true.
Proof.
  revert p; induction sub as [|m sub IH]; intros p H; [reflexivity|].
  destruct p as [|y p]; [discriminate|]. cbn [app startswith] in *.
  apply andb_true_iff in H as [H1 H2]. rewrite H1. now apply IH.
Qed.

Lemma contains_prefix (p q sub : pystr) :
  contains (p ++ q) sub = false -> contains p sub = false.
Proof.
  induction p as [|x p IH]; intros H.
  - destruct sub as [|m sub]; [|reflexivity].
    destruct q; discriminate H.
  - cbn [app contains] in *. apply orb_false_iff in H as [H1 H2].
    rewrite (IH H2), orb_false_r.
    destruct (startswith (x :: p) sub) eqn:E; [|reflexivity].
    apply (startswith_app_r _ q) in E. cbn [app] in E. congruence.
Qed.

Lemma cut_at_prefix (mk s : pystr) : exists rest, s = cut_at mk s ++ rest.
Proof.
  induction s as [|c s (rest & E)]; cbn [cut_at].
  - exists []. now destruct (startswith [] mk).
  - destruct (startswith (c :: s) mk).
    + now exists (c :: s).
    + exists rest. cbn [app]. now f_equal.
Qed.

(** What is cut off in front of a marker has no occurrence of it. *)
Lemma contains_cut_at (m0 : ascii) (mk s : pystr) :
  contains (cut_at (m0 :: mk) s) (m0 :: mk) = false.
Proof.
  induction s as [|c s IH]; [reflexivity|]. cbn [cut_at].
  destruct (startswith (c :: s) (m0 :: mk)) eqn:E; [reflexivity|].
  cbn [contains]. rewrite IH, orb_false_r.
  destruct (startswith (c :: cut_at (m0 :: mk) s) (m0 :: mk)) eqn:E';
    [|reflexivity].
  destruct (cut_at_prefix (m0 :: mk) s) as (rest & Hs).
  apply (startswith_app_r _ rest) in E'. cbn [app] in E'.
  rewrite <- Hs in E'. congruence.
Qed.

Lemma rstrip_prefix (s : pystr) : exists ws, s = rstrip s ++ ws.
Proof.
  destruct (lstrip_split (rev s)) as (ws & E & _).
  exists (rev ws). unfold rstrip.
  rewrite <- rev_app_distr, <- E. now rewrite rev_involutive.
Qed.

Lemma contains_strip (s sub : pystr) :
  contains s sub = false -> contains (strip s) sub = false.
Proof.
  intros H. unfold strip.
  destruct (lstrip_split s) as (ws & E & _). rewrite E in H.
  apply contains_suffix in H.
  destruct (rstrip_prefix (lstrip s)) as (ws' & E'). rewrite E' in H.
  now apply contains_prefix in H.
Qed.

(** X17. The thought the parser returns never holds a newline followed
    by [Action:], and the action never holds a newline followed by
    [Action Input:]: a field does not run over the marker line that ends
    it. *)
Theorem parse_fields_stop_at_marker_line (text : pystr) :
  contains (thought (_parse_react_output text)) (nl :: str "Action:") = false
  /\ contains (action (_parse_react_output text))
       (nl :: str "Action Input:") = false.
Proof.
  rewrite thought_by_marker, action_by_marker. split.
  - destruct (find_after (str "Thought:") text) as [rest|]; [|reflexivity].
    cbn [option_map or_empty]. apply contains_strip, contains_cut_at.
  - destruct (find_after (str "Action:") text) as [rest|]; [|reflexivity].
    cbn [option_map or_empty]. apply contains_strip, contains_cut_at.
Qed.
